(** * Airline network optimisation: the audit and forecast engines of [app.py]

    A shallow embedding of [run_audit] and [get_forecast] (src/app.py, lines
    62-119) and of the pandas / numpy operations they are written with, and
    the properties of the two engines proved over it.

    Numbers.  The measure columns are float64 and every formula of the audit
    is float arithmetic.  The engines are written once, over an interface
    [Arith] of the operations they use, and read at two instances:
    - [binary64]: IEEE 754 double precision (Rocq's primitive floats), the
      arithmetic Python runs, with NaN, infinities and rounding;
    - [exact]: the rationals, the reading in which a property stated "within
      floating tolerance" is an equality.
    [x ** y] is libm's [pow]; it is not fixed bit for bit by IEEE 754, so both
    instances take it as an argument and every theorem holds for all of them. *)

From Stdlib Require Import ZArith List String Ascii Bool Lia Sorted Permutation.
From Stdlib Require Import Floats QArith Qcanon.
Import ListNotations.

Set Implicit Arguments.
Local Open Scope Z_scope.
Local Open Scope list_scope.

(* ================================================================== *)
(** * Orders on group keys *)

(** pandas sorts the groups of a [groupby] by key.  A key order is a
    three-way comparison that is a strict total order. *)
Class KeyOrder {K : Type} (cmp : K -> K -> comparison) : Prop := {
  cmp_eq : forall a b, cmp a b = Eq <-> a = b;
  cmp_antisym : forall a b, cmp b a = CompOpp (cmp a b);
  cmp_trans : forall a b c, cmp a b = Lt -> cmp b c = Lt -> cmp a c = Lt
}.

(** Tuples compare lexicographically, as Python tuples do. *)
Definition lex {A B : Type} (ca : A -> A -> comparison)
    (cb : B -> B -> comparison) (x y : A * B) : comparison :=
  match ca (fst x) (fst y) with
  | Eq => cb (snd x) (snd y)
  | c => c
  end.

(* ================================================================== *)
(** * pandas: groupby, sum, mean, merge *)

Section GroupBy.
Context {K R : Type} (cmp : K -> K -> comparison) (key : R -> K).

(** One row enters the table of groups: at the end of its own group when
    the key is already there, as a new group at the key's sorted position
    otherwise. *)
Fixpoint add_to_group (r : R) (gs : list (K * list R)) : list (K * list R) :=
  match gs with
  | [] => [(key r, [r])]
  | (k, g) :: gs' =>
      match cmp (key r) k with
      | Lt => (key r, [r]) :: gs
      | Eq => (k, g ++ [r]) :: gs'
      | Gt => (k, g) :: add_to_group r gs'
      end
  end.

(** [df.groupby(key)]: the groups in ascending key order, each holding its
    rows in the order of the table. *)
Definition groupby (rows : list R) : list (K * list R) :=
  fold_left (fun gs r => add_to_group r gs) rows [].

(** [df[df[key] == k]]: the rows of one key. *)
Definition has_key (k : K) (r : R) : bool :=
  match cmp (key r) k with Eq => true | _ => false end.
End GroupBy.

(** [pd.merge(left, right, on=key)], an inner join: every left row, in order,
    paired with each right row of the same key. *)
Definition merge {L R K : Type} (eqb : K -> K -> bool) (lkey : L -> K)
    (rkey : R -> K) (left : list L) (right : list R) : list (L * R) :=
  flat_map (fun l => map (fun r => (l, r))
                         (filter (fun r => eqb (lkey l) (rkey r)) right)) left.

(** [np.select(condlist, choicelist, default)] at one position: the choice of
    the first condition that holds, the default when none does. *)
Fixpoint np_select {A : Type} (conds : list bool) (choices : list A)
    (default : A) : A :=
  match conds, choices with
  | c :: conds', x :: choices' => if c then x else np_select conds' choices' default
  | _, _ => default
  end.

(** [Series.max()] of an integer column; [None] for the empty column (pandas
    gives NaN, which equals no year). *)
Definition series_max (xs : list Z) : option Z :=
  match xs with
  | [] => None
  | x :: xs' => Some (fold_left Z.max xs' x)
  end.

(* ================================================================== *)
(** * Arithmetic *)

(** The operations the engines apply to float64 values. *)
Class Arith (F : Type) := {
  of_Z : Z -> F;                 (* an int literal or count, promoted *)
  fadd : F -> F -> F;
  fsub : F -> F -> F;
  fmul : F -> F -> F;
  fdiv : F -> F -> F;
  fpow : F -> F -> F;            (* [x ** y] *)
  fltb : F -> F -> bool;
  fleb : F -> F -> bool
}.

Declare Scope arith_scope.
Delimit Scope arith_scope with A.
Infix "+" := fadd : arith_scope.
Infix "-" := fsub : arith_scope.
Infix "*" := fmul : arith_scope.
Infix "/" := fdiv : arith_scope.
Infix "**" := fpow (at level 30, right associativity) : arith_scope.
Notation "x >? y" := (fltb y x) : arith_scope.
Notation "x <=? y" := (fleb x y) : arith_scope.

Section Numbers.
Context {F : Type} {arith : Arith F}.

(** The decimal literal [m * 10^-k], as [0.6 = dec 6 1].  Python reads a
    literal as the float nearest to it, which is the correctly rounded
    quotient of the two integers (both exact in float64 here). *)
Definition dec (m : Z) (k : nat) : F := (of_Z m / of_Z (10 ^ Z.of_nat k))%A.

(** The ['sum'] aggregation: accumulated down the rows from 0. *)
Definition fsum (xs : list F) : F := fold_left fadd xs (of_Z 0).

(** The ['mean'] aggregation: the sum over the count. *)
Definition fmean (xs : list F) : F :=
  (fsum xs / of_Z (Z.of_nat (List.length xs)))%A.
End Numbers.

(** IEEE 754 binary64 with round-to-nearest-even, the arithmetic of Python's
    [float] and numpy's [float64]; [pow] is libm's. *)
Definition binary64 (pow : float -> float -> float) : Arith float := {|
  of_Z := fun z => SF2Prim (binary_normalize prec emax z 0 false);
  fadd := PrimFloat.add;
  fsub := PrimFloat.sub;
  fmul := PrimFloat.mul;
  fdiv := PrimFloat.div;
  fpow := pow;
  fltb := PrimFloat.ltb;
  fleb := PrimFloat.leb
|}.

(** The values of [pow] that C99 (Annex F.10.4.4) and IEEE 754-2008 (9.2.1)
    fix exactly and that the examples below need: [pow(x, 0) = 1] and
    [pow(1, y) = 1] for every [x], [y].  Other arguments are left NaN: no
    statement depends on them. *)
Definition pow_exact_cases (x y : float) : float :=
  if PrimFloat.eqb y 0%float then 1%float
  else if PrimFloat.eqb x 1%float then 1%float
  else nan.

(** Exact arithmetic over the rationals.  ([x / 0] is 0 there, a value the
    theorems read at this instance never use: they assume the divisor is not
    0.) *)
Definition exact (pow : Qc -> Qc -> Qc) : Arith Qc := {|
  of_Z := fun z => Q2Qc (inject_Z z);
  fadd := Qcplus;
  fsub := Qcminus;
  fmul := Qcmult;
  fdiv := Qcdiv;
  fpow := pow;
  fltb := fun x y => match (x ?= y)%Qc with Lt => true | _ => false end;
  fleb := fun x y => match (x ?= y)%Qc with Gt => false | _ => true end
|}.

(* ================================================================== *)
(** * The tables *)

(** The loaded table [df]: one record per airline, route, year and month,
    with the columns the two engines read. *)
Module Flight.
Record row (F : Type) := {
  YEAR : Z;
  MONTH : Z;
  ORIGIN : string;
  DEST : string;
  DEST_CITY_NAME : string;
  Region : string;
  Dest_Label : string;
  Airline_Label : string;
  PASSENGERS : F;
  SEATS : F;
  DEPARTURES_PERFORMED : F;
  DISTANCE : F
}.
End Flight.

(** [DEST_CITY_NAME] is a column [load_data] treats as optional (line 48):
    [city_names] says whether the CSVs had it.  When they did not, the field
    [Flight.DEST_CITY_NAME] of a record stands for no cell of the table and
    [df['DEST_CITY_NAME']] raises [KeyError]. *)
Record DataFrame (F : Type) := {
  city_names : bool;
  records : list (Flight.row F)
}.

(** [load_data], line 48:
    [df['Dest_Label'] = df.get('DEST_CITY_NAME', df.get('DEST', 'Unknown'))]
    on a table that has the column [DEST]. *)
Definition map_Dest_Label {F : Type} (df : DataFrame F) : DataFrame F := {|
  city_names := city_names df;
  records :=
    map (fun r : Flight.row F => {|
           Flight.YEAR := Flight.YEAR r;
           Flight.MONTH := Flight.MONTH r;
           Flight.ORIGIN := Flight.ORIGIN r;
           Flight.DEST := Flight.DEST r;
           Flight.DEST_CITY_NAME := Flight.DEST_CITY_NAME r;
           Flight.Region := Flight.Region r;
           Flight.Dest_Label :=
             if city_names df then Flight.DEST_CITY_NAME r else Flight.DEST r;
           Flight.Airline_Label := Flight.Airline_Label r;
           Flight.PASSENGERS := Flight.PASSENGERS r;
           Flight.SEATS := Flight.SEATS r;
           Flight.DEPARTURES_PERFORMED := Flight.DEPARTURES_PERFORMED r;
           Flight.DISTANCE := Flight.DISTANCE r |})
        (records df)
|}.

(** [stats] after [groupby(...).agg(...).reset_index()]. *)
Record Agg (F : Type) := {
  Region : string;
  Dest_Label : string;
  Airline_Label : string;
  PASSENGERS : F;
  SEATS : F;
  DEPARTURES_PERFORMED : F;
  DISTANCE : F
}.

(** [stats] with the financial columns (lines 76-80). *)
Record Fin (F : Type) := {
  agg :> Agg F;
  Yield : F;
  Revenue : F;
  Cost : F;
  Profit : F;
  Margin : F
}.

(** The value of [Status]: one of the three choices of [np.select], or its
    default [0] where no condition holds. *)
Inductive status := Monopoly | Competitive | Minor_Player | Default_0.

(** A row of the table [run_audit] returns. *)
Record Route (F : Type) := {
  fin :> Fin F;
  City_Total : F;
  Market_Share : F;
  Status : status
}.

(** [monthly]: passengers per (year, month) of one route. *)
Module Monthly.
Record row (F : Type) := {
  YEAR : Z;
  MONTH : Z;
  PASSENGERS : F
}.
End Monthly.

Inductive series_kind := Historical | Forecast.

(** A row of the series [get_forecast] returns. *)
Module Series.
Record row (F : Type) := {
  YEAR : Z;
  MONTH : Z;
  PASSENGERS : F;
  Type_ : series_kind
}.
End Series.

(** What a call gives: a value, or an exception that leaves the engine. *)
Inductive exn := KeyError (column : string).

Inductive result (A : Type) :=
| Return (a : A)
| Raise (e : exn).
Arguments Raise {A} e.

(** scikit-learn's [RandomForestRegressor], which the forecast engine calls
    and this repository does not define: some type of fitted models, what
    [fit] builds from a training set, and what a fitted model predicts for
    one [(YEAR, MONTH)].  The forest is randomised; a regressor here is one
    run of it, and the theorems hold for every regressor. *)
Record Regressor (F : Type) := {
  model : Type;
  fit : list (Z * Z) -> list F -> model;
  predict : model -> Z * Z -> F
}.

(** The calls an invocation of the forecast engine makes to the regressor. *)
Inductive sk_call (F : Type) :=
| Fit (X : list (Z * Z)) (y : list F)
| Predict (X : list (Z * Z)).
Arguments Predict {F} X.

(* ================================================================== *)
(** * The engines *)

Definition is_empty {A : Type} (l : list A) : bool :=
  match l with [] => true | _ => false end.

(** [range(a, b)]. *)
Definition range (a b : Z) : list Z :=
  map (fun i => a + Z.of_nat i) (seq 0 (Z.to_nat (b - a))).

(** [Series.isin(values)] at one position. *)
Definition isin (x : Z) (values : list Z) : bool := existsb (Z.eqb x) values.

(** The order of the audit's group keys, tuples of three strings. *)
Definition key_cmp : string * string * string -> string * string * string -> comparison :=
  lex (lex String.compare String.compare) String.compare.

(** The order of [(YEAR, MONTH)]. *)
Definition period_cmp : Z * Z -> Z * Z -> comparison := lex Z.compare Z.compare.

Section Engines.
Context {F : Type} {arith : Arith F}.

(** ** [run_audit] (lines 62-95) *)

Definition group_key (r : Flight.row F) : string * string * string :=
  (Flight.Region r, Flight.Dest_Label r, Flight.Airline_Label r).

(** Lines 70-73: the aggregation of one group. *)
Definition aggregate (g : string * string * string * list (Flight.row F)) : Agg F :=
  {| Region := fst (fst (fst g));
     Dest_Label := snd (fst (fst g));
     Airline_Label := snd (fst g);
     PASSENGERS := fsum (map (@Flight.PASSENGERS F) (snd g));
     SEATS := fsum (map (@Flight.SEATS F) (snd g));
     DEPARTURES_PERFORMED := fsum (map (@Flight.DEPARTURES_PERFORMED F) (snd g));
     DISTANCE := fmean (map (@Flight.DISTANCE F) (snd g)) |}.

(** Lines 76-80: the financial columns of one row. *)
Definition financials (s : Agg F) : Fin F :=
  let yield := (dec 6 1 * (DISTANCE s ** dec (-15) 2))%A in
  let revenue := (PASSENGERS s * (DISTANCE s * yield))%A in
  let cost := ((((DISTANCE s / of_Z 450) + dec 5 1) * DEPARTURES_PERFORMED s)
               * (of_Z 5500 + (of_Z 850 * dec 280 2)))%A in
  let profit := (revenue - cost)%A in
  let margin := ((profit / revenue) * of_Z 100)%A in
  {| agg := s; Yield := yield; Revenue := revenue; Cost := cost;
     Profit := profit; Margin := margin |}.

(** Lines 83-84: passengers per destination over all its airlines. *)
Definition city_totals (stats : list (Fin F)) : list (string * F) :=
  map (fun g => (fst g, fsum (map (fun s : Fin F => PASSENGERS s) (snd g))))
      (groupby String.compare (fun s : Fin F => Dest_Label s) stats).

(** Lines 88-93: the three conditions and [np.select]. *)
Definition classify (market_share : F) : status :=
  let conditions :=
    [ (market_share >? of_Z 50)%A;
      (market_share >? of_Z 20)%A && (market_share <=? of_Z 50)%A;
      (market_share <=? of_Z 20)%A ] in
  np_select conditions [Monopoly; Competitive; Minor_Player] Default_0.

(** Lines 86-93 on one merged row. *)
Definition market_position (m : Fin F * (string * F)) : Route F :=
  let city_total := snd (snd m) in
  let market_share := ((PASSENGERS (fst m) / city_total) * of_Z 100)%A in
  {| fin := fst m; City_Total := city_total; Market_Share := market_share;
     Status := classify market_share |}.

(** Line 65: the records of the hub in the latest year of the table. *)
Definition hub_data (df : DataFrame F) (hub_code : string) : list (Flight.row F) :=
  let max_year := series_max (map (@Flight.YEAR F) (records df)) in
  filter (fun r => match max_year with
                   | Some y => Flight.YEAR r =? y
                   | None => false
                   end && (Flight.ORIGIN r =? hub_code)%string)
         (records df).

Definition run_audit (df : DataFrame F) (hub_code : string) : option (list (Route F)) :=
  let data := hub_data df hub_code in
  if is_empty data then None else
  let stats := map aggregate (groupby key_cmp group_key data) in
  let stats := map financials stats in
  let stats := merge String.eqb (fun s : Fin F => Dest_Label s) fst
                     stats (city_totals stats) in
  Some (map market_position stats).

(** ** [get_forecast] (lines 98-119) *)

Variable rf : Regressor F.

(** Lines 99-100: the route by city name, else by airport code. *)
Definition select_route (df : DataFrame F) (origin dest : string) : list (Flight.row F) :=
  let route := filter (fun r => (Flight.ORIGIN r =? origin)%string
                                && (Flight.DEST_CITY_NAME r =? dest)%string)
                      (records df) in
  if is_empty route
  then filter (fun r => (Flight.ORIGIN r =? origin)%string
                        && (Flight.DEST r =? dest)%string)
              (records df)
  else route.

(** Line 104. *)
Definition monthly_series (route : list (Flight.row F)) : list (Monthly.row F) :=
  map (fun g => {| Monthly.YEAR := fst (fst g);
                   Monthly.MONTH := snd (fst g);
                   Monthly.PASSENGERS := fsum (map (@Flight.PASSENGERS F) (snd g)) |})
      (groupby period_cmp (fun r => (Flight.YEAR r, Flight.MONTH r)) route).

(** Line 105: the training subset. *)
Definition training_subset (monthly : list (Monthly.row F)) : list (Monthly.row F) :=
  filter (fun p => negb (isin (Monthly.YEAR p) [2020; 2021])) monthly.

Definition historical (p : Monthly.row F) : Series.row F :=
  {| Series.YEAR := Monthly.YEAR p; Series.MONTH := Monthly.MONTH p;
     Series.PASSENGERS := Monthly.PASSENGERS p; Series.Type_ := Historical |}.

(** The engine gives the calls it made to the regressor, the series (or
    [None]) and the status string.  Indexing [df['DEST_CITY_NAME']] on line
    99 raises [KeyError] when the table has no such column.  The branch
    [None] of [last_year] is dead: [monthly] holds at least the 12 rows of
    [clean] there. *)
Definition get_forecast (df : DataFrame F) (origin dest : string)
  : result (list (sk_call F) * (option (list (Series.row F)) * string)) :=
  if negb (city_names df) then Raise (KeyError "DEST_CITY_NAME") else
  let route := select_route df origin dest in
  if is_empty route then Return ([], (None, "No Data"%string)) else
  let monthly := monthly_series route in
  let clean := training_subset monthly in
  if (List.length clean <? 12)%nat
  then Return ([], (None, "Not Enough Data"%string)) else
  let X := map (fun p => (Monthly.YEAR p, Monthly.MONTH p)) clean in
  let y := map (@Monthly.PASSENGERS F) clean in
  let fitted := fit rf X y in
  match series_max (map (@Monthly.YEAR F) monthly) with
  | None => Return ([Fit X y], (None, "Not Enough Data"%string))
  | Some last_year =>
      let future := map (fun m => (last_year + 1, m)) (range 1 13) in
      let predicted :=
        map (fun x => {| Series.YEAR := fst x; Series.MONTH := snd x;
                         Series.PASSENGERS := predict rf fitted x;
                         Series.Type_ := Forecast |}) future in
      Return ([Fit X y; Predict future],
              (Some (map historical monthly ++ predicted), "Success"%string))
  end.
End Engines.

(* ================================================================== *)
(** * The loader *)

(** The table [pd.concat] gives on line 34, column names in upper case.
    [Raw.columns] says which of the columns [load_data] tests for or reads
    unguarded the CSVs had; the field of an absent column stands for no cell
    of the table.  The other columns are those the engines index. *)
Module Raw.
Record columns := {
  has_SEATS : bool;
  has_DEPARTURES_PERFORMED : bool;
  has_CARRIER_NAME : bool;
  has_UNIQUE_CARRIER : bool;
  has_DEST_CITY_NAME : bool;
  has_DEST_COUNTRY_NAME : bool;
  has_DEST_STATE_ABR : bool
}.

Record row (F : Type) := {
  YEAR : Z;
  MONTH : Z;
  ORIGIN : string;
  DEST : string;
  PASSENGERS : F;
  DISTANCE : F;
  SEATS : F;
  DEPARTURES_PERFORMED : F;
  CARRIER_NAME : string;
  UNIQUE_CARRIER : string;
  DEST_CITY_NAME : string;
  DEST_COUNTRY_NAME : string;
  DEST_STATE_ABR : string
}.

Record frame (F : Type) := {
  cols : columns;
  rows : list (row F)
}.
End Raw.

Section Loader.
Context {F : Type} {arith : Arith F}.

(** Lines 44-53: the label columns of one record.  ([Origin_Label], line 47,
    is read nowhere and has no field.) *)
Definition label (c : Raw.columns) (r : Raw.row F) : Flight.row F :=
  {| Flight.YEAR := Raw.YEAR r;
     Flight.MONTH := Raw.MONTH r;
     Flight.ORIGIN := Raw.ORIGIN r;
     Flight.DEST := Raw.DEST r;
     Flight.DEST_CITY_NAME := Raw.DEST_CITY_NAME r;
     Flight.Region :=
       if Raw.has_DEST_COUNTRY_NAME c then Raw.DEST_COUNTRY_NAME r
       else if Raw.has_DEST_STATE_ABR c then Raw.DEST_STATE_ABR r
       else "Global"%string;
     Flight.Dest_Label :=
       if Raw.has_DEST_CITY_NAME c then Raw.DEST_CITY_NAME r else Raw.DEST r;
     Flight.Airline_Label :=
       if Raw.has_CARRIER_NAME c then Raw.CARRIER_NAME r
       else if Raw.has_UNIQUE_CARRIER c then Raw.UNIQUE_CARRIER r
       else "Unknown"%string;
     Flight.PASSENGERS := Raw.PASSENGERS r;
     Flight.SEATS := Raw.SEATS r;
     Flight.DEPARTURES_PERFORMED := Raw.DEPARTURES_PERFORMED r;
     Flight.DISTANCE := Raw.DISTANCE r |}.

(** [load_data] from line 36 on, [raw] being the table of line 34.  Without
    the column [SEATS] line 38 raises [KeyError], which line 57 catches: the
    loader returns [None]. *)
Definition load_data (raw : Raw.frame F) : option (DataFrame F) :=
  let c := Raw.cols raw in
  if negb (Raw.has_SEATS c) then None else
  let df := filter (fun r => (Raw.SEATS r >? of_Z 0)%A) (Raw.rows raw) in
  let df := if Raw.has_DEPARTURES_PERFORMED c
            then filter (fun r => (Raw.DEPARTURES_PERFORMED r >? of_Z 0)%A) df
            else df in
  Some {| city_names := Raw.has_DEST_CITY_NAME c;
          records := map (label c) df |}.
End Loader.

(* ================================================================== *)
(** * The page (lines 125-197) *)

(** [Series.unique()]: the distinct values in the order of their first
    appearance. *)
Definition unique (xs : list string) : list string :=
  fold_left (fun seen x => if existsb (String.eqb x) seen then seen else seen ++ [x])
            xs [].

(** One value enters a sorted list, after the values that are not greater. *)
Fixpoint insort (x : string) (l : list string) : list string :=
  match l with
  | [] => [x]
  | y :: l' =>
      match String.compare x y with
      | Lt => x :: l
      | _ => y :: insort x l'
      end
  end.

(** [sorted(xs)] on strings. *)
Definition sorted (xs : list string) : list string :=
  fold_left (fun l x => insort x l) xs [].

(** [l.index(x)] where [x in l]. *)
Fixpoint index (x : string) (l : list string) : nat :=
  match l with
  | [] => 0
  | y :: l' => if String.eqb y x then 0 else S (index x l')
  end.

(** [pat in s], which [Series.str.contains(pat)] tests for a pattern without
    metacharacters. *)
Fixpoint str_contains (pat s : string) : bool :=
  String.prefix pat s ||
  match s with
  | EmptyString => false
  | String _ s' => str_contains pat s'
  end.

(** The string of a status on line 93: a pictograph (UTF-8), a space and the
    name; the default [0] of [np.select] reads "0" among strings. *)
Definition utf8 (bytes : list Z) : string :=
  string_of_list_ascii (map (fun b => ascii_of_N (Z.to_N b)) bytes).

Definition status_str (s : status) : string :=
  match s with
  | Monopoly => utf8 [240; 159; 145; 145] ++ " Monopoly"
  | Competitive => utf8 [226; 154; 148; 239; 184; 143] ++ " Competitive"
  | Minor_Player => utf8 [226; 154; 160; 239; 184; 143] ++ " Minor Player"
  | Default_0 => "0"
  end%string.

Section Page.
Context {F : Type}.

(** Line 135. *)
Definition hubs (df : DataFrame F) : list string :=
  sorted (unique (map (@Flight.ORIGIN F) (records df))).

(** Line 136. *)
Definition default_ix (hubs : list string) : nat :=
  if existsb (String.eqb "JFK") hubs then index "JFK" hubs else 0%nat.

(** Line 146. *)
Definition monopolies (audit : list (Route F)) : nat :=
  List.length (filter (fun row : Route F =>
                         str_contains "Monopoly" (status_str (Status row)))
                      audit).

(** Line 185: the destinations offered for a forecast. *)
Definition target_cities (audit : list (Route F)) : list string :=
  sorted (unique (map (fun row : Route F => Dest_Label row) audit)).
End Page.

(* ================================================================== *)
(** * The reference computations of the specification

    Written from the specification's words, to compare the engines with. *)


Section Reference.
Context {F : Type} {arith : Arith F}.

(** The key of an output row. *)
Definition route_key (row : Route F) : string * string * string :=
  (Region row, Dest_Label row, Airline_Label row).

(** The group of a key: the hub's latest-year records whose three labels are
    the key's. *)
Definition reference_group (df : DataFrame F) (hub_code : string)
    (k : string * string * string) : list (Flight.row F) :=
  filter (fun r => (Flight.Region r =? fst (fst k))%string
                   && (Flight.Dest_Label r =? snd (fst k))%string
                   && (Flight.Airline_Label r =? snd k)%string)
         (hub_data df hub_code).


(** The rows of one destination in an audit result. *)
Definition rows_of_destination (dest : string) (stats : list (Route F)) : list (Route F) :=
  filter (fun row : Route F => (Dest_Label row =? dest)%string) stats.

(** [city_total_passengers]: the passengers of all the airlines of a
    destination. *)
Definition city_total_passengers (dest : string) (stats : list (Route F)) : F :=
  fsum (map (fun row : Route F => PASSENGERS row) (rows_of_destination dest stats)).

(** The sum of [market_share_pct] over the rows of a destination. *)
Definition share_sum (dest : string) (stats : list (Route F)) : F :=
  fsum (map (@Market_Share F) (rows_of_destination dest stats)).

(** The three statuses of the classification. *)
Definition is_status (s : status) : bool :=
  match s with Default_0 => false | _ => true end.

(** The bucket of each status: above 50, above 20 up to 50, up to 20. *)
Definition in_bucket (market_share : F) (s : status) : Prop :=
  match s with
  | Monopoly => (market_share >? of_Z 50)%A = true
  | Competitive =>
      (market_share >? of_Z 20)%A = true /\ (market_share <=? of_Z 50)%A = true
  | Minor_Player => (market_share <=? of_Z 20)%A = true
  | Default_0 => False
  end.

(** The Historical points of a series. *)
Definition is_historical (p : Series.row F) : bool :=
  match Series.Type_ p with Historical => true | Forecast => false end.

(** The (year, month) of a monthly point and of a point of a series. *)
Definition period (p : Monthly.row F) : Z * Z := (Monthly.YEAR p, Monthly.MONTH p).

End Reference.

(* ================================================================== *)
(** * Example tables *)

Definition flight_row {F : Type} (year month : Z)
    (origin dest city region airline : string)
    (passengers seats departures distance : F) : Flight.row F :=
  {| Flight.YEAR := year; Flight.MONTH := month;
     Flight.ORIGIN := origin; Flight.DEST := dest; Flight.DEST_CITY_NAME := city;
     Flight.Region := region; Flight.Dest_Label := city;
     Flight.Airline_Label := airline;
     Flight.PASSENGERS := passengers; Flight.SEATS := seats;
     Flight.DEPARTURES_PERFORMED := departures; Flight.DISTANCE := distance |}.

Definition flight (year month : Z) (origin dest city region airline : string)
    (passengers seats departures distance : float) : Flight.row float :=
  flight_row year month origin dest city region airline
             passengers seats departures distance.

(** Two airlines from JFK to London in 2023, and an older record of another
    hub. *)
Definition jfk_london : DataFrame float := {|
  city_names := true;
  records :=
    [ flight 2023 1 "JFK" "LHR" "London" "United Kingdom" "AA" 1000 1200 10 3000;
      flight 2023 1 "JFK" "LHR" "London" "United Kingdom" "BA" 500 600 5 3000;
      flight 2022 6 "BOS" "LHR" "London" "United Kingdom" "BA" 400 600 5 3200 ]
|}.

(** One positioning leg: seats and a departure, no passenger. *)
Definition empty_cabin : DataFrame float := {|
  city_names := true;
  records := [ flight 2023 1 "JFK" "JRB" "New York" "United States" "AA" 0 100 1 1 ]
|}.

(** The audit of [jfk_london] at JFK, evaluated: two rows, AA with two thirds
    of the passengers and BA with one third.  (Their distance, 3000, is not
    an argument at which [pow_exact_cases] has a value, so the yield of these
    rows is left NaN.) *)
Definition jfk_london_audit : list (Route float) :=
  Eval vm_compute in
    match run_audit (arith := binary64 pow_exact_cases) jfk_london "JFK" with
    | Some stats => stats
    | None => []
    end.

Definition jfk_london_AA : Route float :=
  Eval vm_compute in
    hd (market_position (arith := binary64 pow_exact_cases)
          (financials (arith := binary64 pow_exact_cases)
             (aggregate (arith := binary64 pow_exact_cases)
                ((EmptyString, EmptyString, EmptyString), [])),
           (EmptyString, 0%float)))
       jfk_london_audit.

(** [jfk_london] with rational measures, and a stand-in for [pow] in exact
    arithmetic, where [x ** y] is irrational in general: nothing read at
    [exact] depends on the value of [pow]. *)
Definition jfk_london_exact : DataFrame Qc :=
  let n (z : Z) : Qc := Q2Qc (inject_Z z) in {|
  city_names := true;
  records :=
    [ flight_row 2023 1 "JFK" "LHR" "London" "United Kingdom" "AA"
             (n 1000) (n 1200) (n 10) (n 3000);
      flight_row 2023 1 "JFK" "LHR" "London" "United Kingdom" "BA"
             (n 500) (n 600) (n 5) (n 3000);
      flight_row 2022 6 "BOS" "LHR" "London" "United Kingdom" "BA"
             (n 400) (n 600) (n 5) (n 3200) ]
|}.

Definition pow_stand_in (x y : Qc) : Qc := Q2Qc (inject_Z 1).

Definition jfk_london_exact_audit : list (Route Qc) :=
  Eval vm_compute in
    match run_audit (arith := exact pow_stand_in) jfk_london_exact "JFK" with
    | Some stats => stats
    | None => []
    end.

Definition jfk_london_exact_AA : Route Qc :=
  Eval vm_compute in
    hd (market_position (arith := exact pow_stand_in)
          (financials (arith := exact pow_stand_in)
             (aggregate (arith := exact pow_stand_in)
                ((EmptyString, EmptyString, EmptyString), [])),
           (EmptyString, Q2Qc (inject_Z 0))))
       jfk_london_exact_audit.

(** A table loaded from CSVs that carry airport codes and no city names:
    [load_data] labels its destinations by code. *)
Definition codes_only : DataFrame float :=
  map_Dest_Label {|
    city_names := false;
    records := [ flight 2023 1 "JFK" "LHR" "LHR" "United Kingdom" "AA" 1000 1200 10 3000 ]
  |}.

(** One airline from JFK to London, one record a month. *)
Definition months (year first last : Z) (passengers : float) : list (Flight.row float) :=
  map (fun m => flight year m "JFK" "LHR" "London" "United Kingdom" "AA"
                       passengers 1200 10 3000)
      (range first (last + 1)).

(** Twelve months of 2021 and eleven of 2022. *)
Definition eleven_months : DataFrame float := {|
  city_names := true;
  records := months 2021 1 12 300 ++ months 2022 1 11 1000
|}.

(** 2019 and 2020 in full and the first half of 2022. *)
Definition three_years : DataFrame float := {|
  city_names := true;
  records := months 2019 1 12 1000 ++ months 2020 1 12 200 ++ months 2022 1 6 900
|}.

(** A stand-in for the random forest in the examples: the fitted model is the
    mean of the training passengers, predicted for every month. *)
Definition mean_regressor : Regressor float := {|
  model := float;
  fit := fun _ y => fmean (arith := binary64 pow_exact_cases) y;
  predict := fun m _ => m
|}.

(** The forecast for JFK to London on [three_years], evaluated: the calls to
    the regressor and the series. *)
Definition three_years_calls : list (sk_call float) :=
  Eval vm_compute in
    match get_forecast (arith := binary64 pow_exact_cases) mean_regressor
                       three_years "JFK" "London" with
    | Return (calls, _) => calls
    | Raise _ => []
    end.

Definition three_years_series : option (list (Series.row float)) :=
  Eval vm_compute in
    match get_forecast (arith := binary64 pow_exact_cases) mean_regressor
                       three_years "JFK" "London" with
    | Return (_, (series, _)) => series
    | Raise _ => None
    end.



(** A record of another hub. *)
Definition bos_london : list (Flight.row float) :=
  [ flight 2023 1 "BOS" "LHR" "London" "United Kingdom" "BA" 400 600 5 3200 ].

Definition jfk_london_exact_BA : Route Qc :=
  Eval vm_compute in nth 1 jfk_london_exact_audit jfk_london_exact_AA.

(** One airline from JFK to Paris, with rational measures, and its audit. *)
Definition jfk_paris_exact : DataFrame Qc :=
  let n (z : Z) : Qc := Q2Qc (inject_Z z) in {|
  city_names := true;
  records :=
    [ flight_row 2023 3 "JFK" "CDG" "Paris" "France" "AF"
                 (n 700) (n 900) (n 8) (n 3600) ]
|}.

Definition jfk_paris_exact_audit : list (Route Qc) :=
  Eval vm_compute in
    match run_audit (arith := exact pow_stand_in) jfk_paris_exact "JFK" with
    | Some stats => stats
    | None => []
    end.

Definition jfk_paris_exact_AF : Route Qc :=
  Eval vm_compute in hd jfk_london_exact_AA jfk_paris_exact_audit.

(** [three_years] with other passengers in 2020. *)
Definition three_years_revised : DataFrame float := {|
  city_names := true;
  records := months 2019 1 12 1000 ++ months 2020 1 12 777 ++ months 2022 1 6 900
|}.

(** [jfk_london_exact] with its records in the opposite order. *)
Definition jfk_london_exact_reversed : DataFrame Qc := {|
  city_names := true;
  records := rev (records jfk_london_exact)
|}.


(** A raw table with every column: AA and BA from JFK to London in January
    2023, a cargo flight without seats and a flight that never took off. *)
Definition all_columns : Raw.columns := {|
  Raw.has_SEATS := true;
  Raw.has_DEPARTURES_PERFORMED := true;
  Raw.has_CARRIER_NAME := true;
  Raw.has_UNIQUE_CARRIER := true;
  Raw.has_DEST_CITY_NAME := true;
  Raw.has_DEST_COUNTRY_NAME := true;
  Raw.has_DEST_STATE_ABR := true
|}.

Definition raw_row {F : Type} (carrier code : string)
    (passengers seats departures distance : F) : Raw.row F :=
  {| Raw.YEAR := 2023; Raw.MONTH := 1;
     Raw.ORIGIN := "JFK"; Raw.DEST := "LHR";
     Raw.PASSENGERS := passengers; Raw.DISTANCE := distance;
     Raw.SEATS := seats; Raw.DEPARTURES_PERFORMED := departures;
     Raw.CARRIER_NAME := carrier; Raw.UNIQUE_CARRIER := code;
     Raw.DEST_CITY_NAME := "London";
     Raw.DEST_COUNTRY_NAME := "United Kingdom";
     Raw.DEST_STATE_ABR := "ENG" |}.

Definition raw_jfk : Raw.frame float := {|
  Raw.cols := all_columns;
  Raw.rows :=
    [ raw_row "American Airlines" "AA" 1000%float 1200%float 10%float 3000%float;
      raw_row "British Airways" "BA" 500%float 600%float 5%float 3000%float;
      raw_row "Federal Express" "FX" 0%float 0%float 3%float 3000%float;
      raw_row "Delta Air Lines" "DL" 0%float 100%float 0%float 3000%float ]
|}.

Definition no_table {F : Type} : DataFrame F :=
  {| city_names := false; records := [] |}.

(** [raw_jfk] loaded, and the audit of JFK on it. *)
Definition loaded_jfk : DataFrame float :=
  Eval vm_compute in
    match load_data (arith := binary64 pow_exact_cases) raw_jfk with
    | Some df => df
    | None => no_table
    end.

Definition loaded_jfk_audit : list (Route float) :=
  Eval vm_compute in
    match run_audit (arith := binary64 pow_exact_cases) loaded_jfk "JFK" with
    | Some stats => stats
    | None => []
    end.





(** The audit of [empty_cabin] at JFK, evaluated: one row. *)
Definition empty_cabin_audit : list (Route float) :=
  Eval vm_compute in
    match run_audit (arith := binary64 pow_exact_cases) empty_cabin "JFK" with
    | Some stats => stats
    | None => []
    end.

Definition empty_cabin_row : Route float :=
  Eval vm_compute in hd jfk_london_AA empty_cabin_audit.

(* ================================================================== *)
(** * Key orders *)

Unset Implicit Arguments.

#[export] Instance Z_KeyOrder : KeyOrder Z.compare.
Proof.
  split.
  - apply Z.compare_eq_iff.
  - intros a b. apply Z.compare_antisym.
  - intros a b c. rewrite !Z.compare_lt_iff. lia.
Qed.

Lemma ascii_compare_trans (a b c : ascii) :
  Ascii.compare a b = Lt -> Ascii.compare b c = Lt -> Ascii.compare a c = Lt.
Proof.
  unfold Ascii.compare. rewrite !N.compare_lt_iff. apply N.lt_trans.
Qed.

Lemma ascii_compare_refl (a : ascii) : Ascii.compare a a = Eq.
Proof. apply N.compare_refl. Qed.

Lemma string_compare_refl (a : string) : String.compare a a = Eq.
Proof.
  induction a as [|x a IH]; simpl; trivial. now rewrite ascii_compare_refl.
Qed.

Lemma string_compare_trans (a b c : string) :
  String.compare a b = Lt -> String.compare b c = Lt -> String.compare a c = Lt.
Proof.
  revert b c.
  induction a as [|x a IH]; intros [|y b] [|z c]; simpl; try easy.
  destruct (Ascii.compare x y) eqn:Exy; try discriminate;
    destruct (Ascii.compare y z) eqn:Eyz; try discriminate; intros Hab Hbc.
  - apply Ascii.compare_eq_iff in Exy, Eyz. subst.
    rewrite ascii_compare_refl. eauto.
  - apply Ascii.compare_eq_iff in Exy. subst. now rewrite Eyz.
  - apply Ascii.compare_eq_iff in Eyz. subst. now rewrite Exy.
  - now rewrite (ascii_compare_trans _ _ _ Exy Eyz).
Qed.

#[export] Instance string_KeyOrder : KeyOrder String.compare.
Proof.
  split.
  - intros a b. split.
    + apply String.compare_eq_iff.
    + intros ->. apply string_compare_refl.
  - intros a b. apply String.compare_antisym.
  - apply string_compare_trans.
Qed.

Lemma cmp_refl {K} (cmp : K -> K -> comparison) `{!KeyOrder cmp} (a : K) :
  cmp a a = Eq.
Proof. now apply cmp_eq. Qed.

Lemma cmp_gt_lt {K} (cmp : K -> K -> comparison) `{!KeyOrder cmp} (a b : K) :
  cmp a b = Gt <-> cmp b a = Lt.
Proof.
  rewrite (cmp_antisym (cmp:=cmp) a b). destruct (cmp a b); simpl; split; congruence.
Qed.

#[export] Instance lex_KeyOrder {A B} (ca : A -> A -> comparison)
    (cb : B -> B -> comparison) `{!KeyOrder ca} `{!KeyOrder cb} :
  KeyOrder (lex ca cb).
Proof.
  split.
  - intros [a b] [a' b']. unfold lex. simpl.
    destruct (ca a a') eqn:E.
    + apply cmp_eq in E. subst. rewrite cmp_eq. split; congruence.
    + split; [discriminate|]. intros [= -> _].
      now rewrite (cmp_refl ca) in E.
    + split; [discriminate|]. intros [= -> _].
      now rewrite (cmp_refl ca) in E.
  - intros [a b] [a' b']. unfold lex. simpl.
    rewrite (cmp_antisym (cmp:=ca) a a'). destruct (ca a a'); simpl; trivial.
    apply cmp_antisym.
  - intros [a b] [a' b'] [a'' b'']. unfold lex. simpl.
    destruct (ca a a') eqn:E1; try discriminate;
      destruct (ca a' a'') eqn:E2; try discriminate; intros H1 H2.
    + apply cmp_eq in E1, E2. subst. rewrite (cmp_refl ca).
      eapply cmp_trans; eauto.
    + apply cmp_eq in E1. subst. now rewrite E2.
    + apply cmp_eq in E2. subst. now rewrite E1.
    + now rewrite (cmp_trans (cmp:=ca) _ _ _ E1 E2).
Qed.

#[export] Instance key_cmp_KeyOrder : KeyOrder key_cmp.
Proof. unfold key_cmp. typeclasses eauto. Qed.

#[export] Instance period_cmp_KeyOrder : KeyOrder period_cmp.
Proof. unfold period_cmp. typeclasses eauto. Qed.

(* ================================================================== *)
(** * [groupby]: sorted keys, and each group is the rows of its key *)

Section GroupByFacts.
Context {K R : Type} (cmp : K -> K -> comparison) (key : R -> K).
Context `{!KeyOrder cmp}.

Definition key_lt (a b : K * list R) : Prop := cmp (fst a) (fst b) = Lt.

Local Abbreviation add := (add_to_group cmp key).
Local Abbreviation rows_of := (has_key cmp key).

Lemma has_key_true k r : rows_of k r = true <-> key r = k.
Proof.
  unfold has_key. rewrite <- (cmp_eq (cmp:=cmp)).
  destruct (cmp (key r) k); split; congruence.
Qed.

Lemma has_key_lt k r : cmp (key r) k = Lt -> rows_of k r = false.
Proof. unfold has_key. now intros ->. Qed.

Lemma has_key_gt k r : cmp (key r) k = Gt -> rows_of k r = false.
Proof. unfold has_key. now intros ->. Qed.

Lemma add_to_group_keys r gs k g :
  In (k, g) (add r gs) -> k = key r \/ exists g0, In (k, g0) gs.
Proof.
  induction gs as [|[k1 g1] gs IH]; simpl.
  - intros [[= <- _]|[]]. now left.
  - destruct (cmp (key r) k1) eqn:E; simpl.
    + intros [[= <- _]|Hin]; right; eauto.
    + intros [[= <- _]|[Hin|Hin]]; [now left|right; eauto..].
    + intros [Hin|Hin]; [right; eauto|].
      destruct (IH Hin) as [->|[g0 H0]]; [now left|right; eauto].
Qed.

Lemma add_to_group_has r gs : exists g, In (key r, g) (add r gs).
Proof.
  induction gs as [|[k1 g1] gs [g IH]]; simpl.
  - eexists. now left.
  - destruct (cmp (key r) k1) eqn:E.
    + apply cmp_eq in E. subst. eexists. now left.
    + eexists. now left.
    + eexists. right. eassumption.
Qed.

Lemma add_to_group_keeps r gs k g :
  In (k, g) gs -> exists g', In (k, g') (add r gs).
Proof.
  induction gs as [|[k1 g1] gs IH]; simpl; [easy|].
  intros [[= -> ->]|Hin]; destruct (cmp (key r) _) eqn:E.
  - eexists. now left.
  - eexists. right. now left.
  - eexists. now left.
  - eexists. right. eassumption.
  - eexists. right. right. eassumption.
  - destruct (IH Hin) as [g' H']. eexists. right. eassumption.
Qed.

Lemma add_to_group_sorted r gs :
  StronglySorted key_lt gs -> StronglySorted key_lt (add r gs).
Proof.
  induction 1 as [|[k1 g1] gs Hs IH Hall]; simpl.
  - repeat constructor.
  - destruct (cmp (key r) k1) eqn:E.
    + constructor; trivial.
    + constructor; [now constructor|].
      constructor; [exact E|].
      eapply Forall_impl; [|exact Hall].
      intros [k g] Hk. unfold key_lt in *. simpl in *.
      eapply cmp_trans; eassumption.
    + constructor; trivial.
      apply Forall_forall. intros [k g] Hin.
      destruct (add_to_group_keys _ _ _ _ Hin) as [->|[g0 H0]].
      * now apply cmp_gt_lt.
      * rewrite Forall_forall in Hall. exact (Hall _ H0).
Qed.

(** Where a row went: to the end of the group of its key, or into a new
    group when the key was not there; the other groups are untouched. *)
Lemma add_to_group_content r gs k g :
  StronglySorted key_lt gs -> In (k, g) (add r gs) ->
  (rows_of k r = true /\
     ((exists g0, In (k, g0) gs /\ g = g0 ++ [r]) \/
      (g = [r] /\ forall g0, ~ In (k, g0) gs)))
  \/ (rows_of k r = false /\ In (k, g) gs).
Proof.
  induction 1 as [|[k1 g1] gs Hs IH Hall]; simpl.
  - intros [[= <- <-]|[]]. left. split; [now apply has_key_true|].
    right. split; trivial. intros g0 Hg0. destruct Hg0.
  - rewrite Forall_forall in Hall.
    destruct (cmp (key r) k1) eqn:E; simpl.
    + pose proof E as E'. apply cmp_eq in E'. subst k1.
      intros [[= <- <-]|Hin].
      * left. split; [now apply has_key_true|]. left. eauto.
      * right. split; [|now right].
        apply has_key_lt. exact (Hall _ Hin).
    + intros [[= <- <-]|[[= <- <-]|Hin]].
      * left. split; [now apply has_key_true|]. right. split; trivial.
        intros g0 Hg0. destruct Hg0 as [[= Hk _]|Hin].
        -- rewrite Hk, cmp_refl in E; [discriminate|assumption].
        -- pose proof (Hall _ Hin) as Hlt. unfold key_lt in Hlt. simpl in Hlt.
           pose proof (cmp_trans _ _ _ E Hlt) as Hc.
           rewrite cmp_refl in Hc; [discriminate|assumption].
      * right. split; [now apply has_key_lt|now left].
      * right. split; [|now right]. apply has_key_lt.
        eapply cmp_trans; [exact E|]. exact (Hall _ Hin).
    + intros [[= <- <-]|Hin].
      * right. split; [now apply has_key_gt|now left].
      * destruct (IH Hin) as [[Hk [(g0 & H0 & ->)|[-> Hno]]]|[Hk H0]].
        -- left. split; trivial. left. exists g0. split; [now right|trivial].
        -- left. split; trivial. right. split; trivial.
           intros g0 Hg0. destruct Hg0 as [[= -> _]|H0]; [|now apply (Hno g0)].
           apply has_key_true in Hk. rewrite Hk, cmp_refl in E;
             [discriminate|assumption].
        -- right. split; [trivial|now right].
Qed.

(** What [groupby] keeps true while it goes down the rows. *)
Definition grouped (rows : list R) (gs : list (K * list R)) : Prop :=
  StronglySorted key_lt gs /\
  (forall k g, In (k, g) gs -> g = filter (rows_of k) rows /\ g <> []) /\
  (forall r, In r rows -> exists g, In (key r, g) gs).

Lemma filter_nil_iff {A} (f : A -> bool) (l : list A) :
  (forall x, In x l -> f x = false) -> filter f l = [].
Proof.
  induction l as [|x l IH]; simpl; trivial. intros Hf.
  rewrite (Hf x) by now left. apply IH. intros y Hy. apply Hf. now right.
Qed.

Lemma grouped_step rows gs r :
  grouped rows gs -> grouped (rows ++ [r]) (add r gs).
Proof.
  intros (Hs & Hc & Hk). split; [|split].
  - now apply add_to_group_sorted.
  - intros k g Hin. rewrite filter_app. simpl.
    destruct (add_to_group_content _ _ _ _ Hs Hin)
      as [[Hr [(g0 & H0 & ->)|[-> Hno]]]|[Hr H0]]; rewrite Hr.
    + destruct (Hc _ _ H0) as [<- _]. split; trivial.
      now destruct g0.
    + rewrite filter_nil_iff; [now split|].
      intros r' Hr'. destruct (rows_of k r') eqn:E; trivial.
      apply has_key_true in E. subst k.
      destruct (Hk _ Hr') as [g0 H0]. now destruct (Hno g0).
    + rewrite app_nil_r. now apply Hc.
  - intros r' Hin. apply in_app_or in Hin. destruct Hin as [Hin|[<-|[]]].
    + destruct (Hk _ Hin) as [g Hg]. eapply add_to_group_keeps; eassumption.
    + apply add_to_group_has.
Qed.

Lemma groupby_grouped rows : grouped rows (groupby cmp key rows).
Proof.
  unfold groupby. induction rows as [|r rows IH] using rev_ind.
  - split; [constructor|split]; simpl; easy.
  - rewrite fold_left_app. simpl. now apply grouped_step.
Qed.

Lemma groupby_sorted rows : StronglySorted key_lt (groupby cmp key rows).
Proof. apply groupby_grouped. Qed.

(** The groups are exactly the non-empty selections by key. *)
Lemma groupby_In rows k g :
  In (k, g) (groupby cmp key rows) <->
  g = filter (rows_of k) rows /\ g <> [].
Proof.
  destruct (groupby_grouped rows) as (Hs & Hc & Hk).
  split; [apply Hc|]. intros [-> Hne].
  destruct (filter (rows_of k) rows) as [|r l] eqn:E; [easy|].
  assert (Hr : In r (filter (rows_of k) rows)) by (rewrite E; now left).
  apply filter_In in Hr. destruct Hr as [Hr Hkr].
  apply has_key_true in Hkr. subst k.
  destruct (Hk _ Hr) as [g Hg].
  destruct (Hc _ _ Hg) as [Hgeq _]. rewrite E in Hgeq. now subst g.
Qed.

Lemma sorted_keys_NoDup (gs : list (K * list R)) :
  StronglySorted key_lt gs -> NoDup (map fst gs).
Proof.
  induction 1 as [|a gs Hs IH Hall]; simpl; constructor; trivial.
  intros Hin. apply in_map_iff in Hin. destruct Hin as (b & Hb & Hin).
  rewrite Forall_forall in Hall. pose proof (Hall _ Hin) as Hlt.
  unfold key_lt in Hlt. rewrite Hb, cmp_refl in Hlt;
    [discriminate|assumption].
Qed.

Lemma groupby_keys_NoDup rows : NoDup (map fst (groupby cmp key rows)).
Proof. apply sorted_keys_NoDup, groupby_sorted. Qed.

Lemma groupby_nil_iff rows : groupby cmp key rows = [] <-> rows = [].
Proof.
  split; [|now intros ->].
  destruct rows as [|r rows]; trivial. intros E.
  destruct (groupby_grouped (r :: rows)) as (_ & _ & Hk).
  destruct (Hk r (or_introl eq_refl)) as [g Hg]. rewrite E in Hg.
  destruct Hg.
Qed.
End GroupByFacts.

(* ================================================================== *)
(** * The rows of an audit *)

Lemma has_key_string {R : Type} (f : R -> string) (k : string) (r : R) :
  has_key String.compare f k r = (f r =? k)%string.
Proof.
  unfold has_key. destruct (String.eqb_spec (f r) k) as [->|Hne].
  - now rewrite string_compare_refl.
  - destruct (String.compare (f r) k) eqn:E; trivial.
    now apply String.compare_eq_iff in E.
Qed.

Lemma assoc_filter_unique {V : Type} (l : list (string * V)) k v :
  NoDup (map fst l) -> In (k, v) l ->
  filter (fun e => (k =? fst e)%string) l = [(k, v)].
Proof.
  induction l as [|[k1 v1] l IH]; simpl; [easy|].
  intros Hnd Hin. inversion_clear Hnd as [|? ? Hk1 Hl].
  destruct Hin as [[= -> ->]|Hin].
  - rewrite String.eqb_refl. f_equal.
    apply filter_nil_iff. intros [k2 v2] H2. simpl.
    apply String.eqb_neq. intros ->. apply Hk1.
    apply in_map_iff. now exists (k2, v2).
  - destruct (String.eqb_spec k k1) as [->|Hne]; [|now apply IH].
    destruct Hk1. apply in_map_iff. now exists (k1, v).
Qed.

Lemma merge_one {L R K : Type} (eqb : K -> K -> bool) (lkey : L -> K)
    (rkey : R -> K) (f : L -> R) (left : list L) (right : list R) :
  (forall l, In l left -> filter (fun r => eqb (lkey l) (rkey r)) right = [f l]) ->
  merge eqb lkey rkey left right = map (fun l => (l, f l)) left.
Proof.
  unfold merge. induction left as [|l left IH]; simpl; trivial.
  intros Hf. rewrite (Hf l) by now left. simpl. f_equal.
  apply IH. intros l' Hl'. apply Hf. now right.
Qed.

Section AuditFacts.
Context {F : Type} {arith : Arith F}.

(** Passengers to one destination over the rows of [stats]. *)
Definition dest_total (stats : list (Fin F)) (dest : string) : F :=
  fsum (map (fun s : Fin F => PASSENGERS s)
            (filter (fun s : Fin F => (Dest_Label s =? dest)%string) stats)).

(** [stats] as it stands after line 80. *)
Definition financial_rows (df : DataFrame F) (hub_code : string) : list (Fin F) :=
  map financials (map aggregate (groupby key_cmp group_key (hub_data df hub_code))).

Lemma city_totals_lookup (stats : list (Fin F)) (s : Fin F) :
  In s stats ->
  filter (fun ct => (Dest_Label s =? fst ct)%string) (city_totals stats)
  = [(Dest_Label s, dest_total stats (Dest_Label s))].
Proof.
  intros Hin. apply assoc_filter_unique.
  - unfold city_totals. rewrite map_map. simpl.
    apply groupby_keys_NoDup; typeclasses eauto.
  - unfold city_totals, dest_total. apply in_map_iff.
    exists (Dest_Label s,
            filter (has_key String.compare (fun s : Fin F => Dest_Label s)
                            (Dest_Label s)) stats).
    split.
    + simpl. do 3 f_equal. apply filter_ext. intros a.
      exact (has_key_string (fun s : Fin F => Dest_Label s) _ a).
    + apply groupby_In; [typeclasses eauto|]. split; trivial.
      intros E.
      assert (Hs : In s (filter (has_key String.compare
                                   (fun s : Fin F => Dest_Label s) (Dest_Label s))
                                stats)).
      { apply filter_In. split; trivial. rewrite has_key_string.
        apply String.eqb_refl. }
      rewrite E in Hs. destruct Hs.
Qed.

(** An audit that returns a table returns one row per row of [stats], in
    order, each with the total of its destination. *)
Lemma run_audit_rows (df : DataFrame F) (hub_code : string) (stats : list (Route F)) :
  run_audit df hub_code = Some stats ->
  hub_data df hub_code <> [] /\
  stats = map (fun s : Fin F =>
                 market_position
                   (s, (Dest_Label s,
                        dest_total (financial_rows df hub_code) (Dest_Label s))))
              (financial_rows df hub_code).
Proof.
  unfold run_audit. destruct (hub_data df hub_code) as [|r data] eqn:E;
    simpl is_empty; cbv iota; [discriminate|].
  intros [= <-]. split; [discriminate|].
  unfold financial_rows. rewrite E.
  rewrite (merge_one _ _ _
             (fun s : Fin F =>
                (Dest_Label s,
                 dest_total (map financials
                               (map aggregate
                                    (groupby key_cmp group_key (r :: data))))
                            (Dest_Label s)))).
  - now rewrite map_map.
  - intros s Hs. now apply city_totals_lookup.
Qed.

Lemma run_audit_None (df : DataFrame F) (hub_code : string) :
  run_audit df hub_code = None <-> hub_data df hub_code = [].
Proof.
  unfold run_audit. destruct (hub_data df hub_code); simpl; split; congruence.
Qed.
End AuditFacts.

(* ================================================================== *)
(** * The audit against the reference aggregation *)

Section AuditAggregation.
Context {F : Type} {arith : Arith F}.

Lemma has_key_group_key (k : string * string * string) (r : Flight.row F) :
  has_key key_cmp group_key k r
  = ((Flight.Region r =? fst (fst k))%string
     && (Flight.Dest_Label r =? snd (fst k))%string
     && (Flight.Airline_Label r =? snd k)%string).
Proof.
  apply Bool.eq_iff_eq_true.
  rewrite has_key_true by typeclasses eauto.
  rewrite !andb_true_iff, !String.eqb_eq.
  destruct k as [[a b] c]. unfold group_key. simpl.
  split; [intros [= -> -> ->]; auto | intros [[-> ->] ->]; trivial].
Qed.

(** The groups [groupby] finds are the reference groups that are not empty. *)
Lemma groups_are_reference_groups (df : DataFrame F) hub_code k g :
  In (k, g) (groupby key_cmp group_key (hub_data df hub_code)) <->
  g = reference_group df hub_code k /\ g <> [].
Proof.
  rewrite groupby_In by typeclasses eauto.
  unfold reference_group.
  rewrite (filter_ext _ _ (has_key_group_key k)). reflexivity.
Qed.

Lemma route_key_of_group (g : string * string * string * list (Flight.row F)) ct :
  route_key (market_position (financials (aggregate g), ct)) = fst g.
Proof. now destruct g as [[[a b] c] l]. Qed.

Lemma audit_keys (df : DataFrame F) hub_code stats :
  run_audit df hub_code = Some stats ->
  map route_key stats
  = map fst (groupby key_cmp group_key (hub_data df hub_code)).
Proof.
  intros Hrun. apply run_audit_rows in Hrun. destruct Hrun as [_ ->].
  unfold financial_rows. rewrite !map_map. apply map_ext.
  intros g. apply route_key_of_group.
Qed.

(** Every row of an audit comes from one group of the hub's data. *)
Lemma audit_row_group (df : DataFrame F) hub_code stats row :
  run_audit df hub_code = Some stats -> In row stats ->
  exists g ct,
    In g (groupby key_cmp group_key (hub_data df hub_code)) /\
    row = market_position (financials (aggregate g), ct).
Proof.
  intros Hrun Hin. apply run_audit_rows in Hrun. destruct Hrun as [_ ->].
  unfold financial_rows in Hin. rewrite !map_map in Hin.
  apply in_map_iff in Hin. destruct Hin as (g & <- & Hg). eauto.
Qed.

(** The keys of the rows of an audit are the keys of the reference groups
    that are not empty. *)
Lemma audit_key_groups (df : DataFrame F) hub_code stats :
  run_audit df hub_code = Some stats ->
  forall k, reference_group df hub_code k <> [] <-> In k (map route_key stats).
Proof.
  intros Hrun k. rewrite (audit_keys _ _ _ Hrun), in_map_iff. split.
  - intros Hne. exists (k, reference_group df hub_code k). split; trivial.
    now apply groups_are_reference_groups.
  - intros ([k' g] & Hk & Hin). simpl in Hk. subst k'.
    apply groups_are_reference_groups in Hin. now destruct Hin as [<- Hne].
Qed.

End AuditAggregation.


(* ================================================================== *)
(** * The latest year and the hub filter *)

Lemma fold_max_spec (xs : list Z) (x : Z) :
  let m := fold_left Z.max xs x in
  In m (x :: xs) /\ x <= m /\ forall y, In y xs -> y <= m.
Proof.
  revert x. induction xs as [|a xs IH]; intros x; simpl.
  - repeat split; (auto || lia || easy).
  - destruct (IH (Z.max x a)) as (Hin & Hle & Hall).
    repeat split.
    + destruct Hin as [Hin|Hin]; [|now right; right].
      rewrite <- Hin. destruct (Z.max_spec x a) as [[_ ->]|[_ ->]]; auto.
    + lia.
    + intros y [<-|Hy]; [lia|auto].
Qed.

Lemma series_max_spec (xs : list Z) :
  match series_max xs with
  | None => xs = []
  | Some m => In m xs /\ forall y, In y xs -> y <= m
  end.
Proof.
  destruct xs as [|x xs]; simpl; trivial.
  destruct (fold_max_spec xs x) as (Hin & Hle & Hall).
  split; trivial. intros y [<-|Hy]; auto.
Qed.

Section HubFilter.
Context {F : Type} {arith : Arith F}.

(** The records [run_audit] keeps. *)
Lemma hub_data_In (df : DataFrame F) (hub_code : string) (r : Flight.row F) :
  In r (hub_data df hub_code) <->
  In r (records df) /\
  series_max (map (@Flight.YEAR F) (records df)) = Some (Flight.YEAR r) /\
  Flight.ORIGIN r = hub_code.
Proof.
  unfold hub_data. rewrite filter_In, andb_true_iff, String.eqb_eq.
  destruct (series_max (map (@Flight.YEAR F) (records df))) as [y|].
  - rewrite Z.eqb_eq. intuition congruence.
  - intuition congruence.
Qed.

End HubFilter.

(* ================================================================== *)
(** * Comparisons of binary64 *)

Section Binary64Order.
Local Open Scope float_scope.

Lemma SFcompare_antisym (x y : spec_float) :
  SFcompare y x = option_map CompOpp (SFcompare x y).
Proof.
  destruct x as [sx|sx| |sx mx ex], y as [sy|sy| |sy my ey]; simpl; trivial;
    try (destruct sx; destruct sy; reflexivity);
    try (destruct sx; reflexivity); try (destruct sy; reflexivity).
  destruct sx, sy; simpl; trivial;
    rewrite (Z.compare_antisym ex ey); destruct (ex ?= ey)%Z; simpl; trivial;
    now rewrite (Pos.compare_cont_antisym mx my Eq).
Qed.

Lemma SFcompare_None (x y : spec_float) :
  SFcompare x y = None -> x = S754_nan \/ y = S754_nan.
Proof.
  destruct x as [sx|sx| |sx mx ex], y as [sy|sy| |sy my ey]; simpl;
    try discriminate; auto.
Qed.

Lemma not_nan_Prim2SF (x : float) :
  is_nan x = false <-> Prim2SF x <> S754_nan.
Proof.
  unfold is_nan. rewrite FloatAxioms.eqb_spec. unfold SFeqb.
  destruct (Prim2SF x) as [s|s| |s m e] eqn:E.
  - simpl. split; [discriminate|trivial].
  - simpl. destruct s; (split; [discriminate|trivial]).
  - simpl. split; [discriminate|]. intros Hn. now destruct Hn.
  - destruct s; simpl; rewrite Z.compare_refl, Pos.compare_cont_refl; simpl;
      (split; [discriminate|trivial]).
Qed.

(** Among numbers, [y < x] is the negation of [x <= y]. *)
Lemma ltb_negb_leb (x y : float) :
  is_nan x = false -> is_nan y = false -> (y <? x) = negb (x <=? y).
Proof.
  rewrite !not_nan_Prim2SF. intros Hx Hy.
  rewrite FloatAxioms.ltb_spec, FloatAxioms.leb_spec. unfold SFltb, SFleb.
  rewrite (SFcompare_antisym (Prim2SF x) (Prim2SF y)).
  destruct (SFcompare (Prim2SF x) (Prim2SF y)) as [[]|] eqn:E; trivial.
  now destruct (SFcompare_None _ _ E).
Qed.

(** NaN compares false with everything. *)
Lemma nan_ltb (x y : float) : is_nan x = true -> (y <? x) = false /\ (x <=? y) = false.
Proof.
  intros Hx. assert (E : Prim2SF x = S754_nan).
  { destruct (Prim2SF x) eqn:E; trivial;
      assert (Hn : Prim2SF x <> S754_nan) by (rewrite E; discriminate);
      apply not_nan_Prim2SF in Hn; congruence. }
  rewrite FloatAxioms.ltb_spec, FloatAxioms.leb_spec, E. unfold SFltb, SFleb.
  split; [now destruct (Prim2SF y)|reflexivity].
Qed.

(** Above 50 is above 20. *)
Lemma gt_50_not_le_20 (x : float) : (50 <? x) = true -> (x <=? 20) = false.
Proof.
  rewrite FloatAxioms.ltb_spec, FloatAxioms.leb_spec.
  change (Prim2SF 50) with (S754_finite false 7036874417766400 (-47)).
  change (Prim2SF 20) with (S754_finite false 5629499534213120 (-48)).
  unfold SFltb, SFleb.
  destruct (Prim2SF x) as [s|s| |s m e]; cbv beta iota delta [SFcompare];
    try discriminate.
  - now destruct s.
  - destruct s; [discriminate|].
    destruct (Z.compare_spec (-47) e); destruct (Z.compare_spec e (-48));
      trivial; try lia; discriminate.
Qed.
End Binary64Order.

(* ================================================================== *)
(** * The status classification *)

Section Classification.
Local Open Scope float_scope.
Variable pow : float -> float -> float.

Lemma classify_binary64 (ms : float) :
  classify (arith := binary64 pow) ms
  = np_select [50 <? ms; (20 <? ms) && (ms <=? 50); ms <=? 20]
              [Monopoly; Competitive; Minor_Player] Default_0.
Proof. reflexivity. Qed.

(** A share that is a number lies in exactly one bucket, and [classify]
    gives the status of that bucket. *)
Lemma classify_number (ms : float) :
  is_nan ms = false ->
  is_status (classify (arith := binary64 pow) ms) = true /\
  forall s, in_bucket (arith := binary64 pow) ms s
            <-> classify (arith := binary64 pow) ms = s.
Proof.
  intros Hn. rewrite classify_binary64.
  pose proof (ltb_negb_leb ms 50%float Hn eq_refl) as H50.
  pose proof (ltb_negb_leb ms 20%float Hn eq_refl) as H20.
  pose proof (gt_50_not_le_20 ms) as Htr.
  assert (Hb : forall s, in_bucket (arith := binary64 pow) ms s <->
             match s with
             | Monopoly => (50 <? ms) = true
             | Competitive => (20 <? ms) = true /\ (ms <=? 50) = true
             | Minor_Player => (ms <=? 20) = true
             | Default_0 => False
             end) by (intros []; reflexivity).
  split; [|intros s; rewrite Hb; clear Hb]; revert H50 H20 Htr;
    destruct (50 <? ms), (20 <? ms), (ms <=? 50), (ms <=? 20);
    simpl; intros H50 H20 Htr; try discriminate; trivial;
    try (now specialize (Htr eq_refl));
    destruct s; split; try discriminate; try tauto; try congruence;
    intuition discriminate.
Qed.

(** A share that is NaN lies in no bucket: [np.select] gives its default. *)
Lemma classify_nan (ms : float) :
  is_nan ms = true -> classify (arith := binary64 pow) ms = Default_0.
Proof.
  intros Hn. rewrite classify_binary64.
  destruct (nan_ltb ms 50 Hn) as [-> _].
  destruct (nan_ltb ms 20 Hn) as [-> ->]. reflexivity.
Qed.
End Classification.

Lemma audit_row_status {F : Type} {arith : Arith F} (df : DataFrame F) hub_code stats row :
  run_audit df hub_code = Some stats -> In row stats ->
  Market_Share row = ((PASSENGERS row / City_Total row) * of_Z 100)%A /\
  Status row = classify (Market_Share row).
Proof.
  intros Hrun Hin. destruct (audit_row_group _ _ _ _ Hrun Hin) as (g & ct & _ & ->).
  split; reflexivity.
Qed.

(** C2, amended.  In binary64, every row of an audit whose market_share_pct
    is a number (not NaN) has exactly one of the three statuses, the one
    whose bucket holds the share: above 50 Monopoly, above 20 and up to 50
    Competitive, up to 20 Minor Player; a share of exactly 50 is Competitive
    and a share of exactly 20 is Minor Player. *)
Theorem status_partitions_numeric_shares
    (pow : float -> float -> float) (df : DataFrame float) (hub_code : string)
    (stats : list (Route float)) (row : Route float) :
  run_audit (arith := binary64 pow) df hub_code = Some stats ->
  In row stats ->
  is_nan (Market_Share row) = false ->
  is_status (Status row) = true /\
  (forall s, in_bucket (arith := binary64 pow) (Market_Share row) s
             <-> Status row = s) /\
  (Market_Share row = 50%float -> Status row = Competitive) /\
  (Market_Share row = 20%float -> Status row = Minor_Player).
Proof.
  intros Hrun Hin Hn.
  destruct (audit_row_status (arith := binary64 pow) _ _ _ _ Hrun Hin) as [_ ->].
  destruct (classify_number pow _ Hn) as [Hs Hb].
  repeat split; trivial; try apply Hb; intros ->; reflexivity.
Qed.

(** [status_partitions_numeric_shares] at the row of AA in the audit of [jfk_london], whose share is two thirds. *)
Lemma status_partitions_numeric_shares_witness :
  run_audit (arith := binary64 pow_exact_cases) jfk_london "JFK"
    = Some jfk_london_audit /\
  In jfk_london_AA jfk_london_audit /\
  is_nan (Market_Share jfk_london_AA) = false /\
  is_status (Status jfk_london_AA) = true /\
  (forall s, in_bucket (arith := binary64 pow_exact_cases)
               (Market_Share jfk_london_AA) s
             <-> Status jfk_london_AA = s) /\
  (Market_Share jfk_london_AA = 50%float -> Status jfk_london_AA = Competitive) /\
  (Market_Share jfk_london_AA = 20%float -> Status jfk_london_AA = Minor_Player).
Proof.
  assert (Hrun : run_audit (arith := binary64 pow_exact_cases) jfk_london "JFK"
                 = Some jfk_london_audit) by (vm_compute; reflexivity).
  assert (Hin : In jfk_london_AA jfk_london_audit) by (left; reflexivity).
  assert (Hn : is_nan (Market_Share jfk_london_AA) = false) by reflexivity.
  exact (conj Hrun (conj Hin (conj Hn
           (status_partitions_numeric_shares _ _ _ _ _ Hrun Hin Hn)))).
Defined.

(** C2, counterexample.  A destination whose airlines carried no passenger
    in the latest year has the share 0/0 = NaN, which is in no bucket: the
    row gets the default of [np.select], none of the three statuses. *)
Lemma status_of_an_empty_destination_is_none_of_the_three :
  exists (df : DataFrame float) (hub_code : string),
    forall pow : float -> float -> float,
    exists stats row,
      run_audit (arith := binary64 pow) df hub_code = Some stats /\
      In row stats /\
      is_nan (Market_Share row) = true /\
      is_status (Status row) = false.
Proof.
  exists empty_cabin, "JFK"%string. intros pow.
  eexists. eexists. split; [vm_compute; reflexivity|].
  split; [left; reflexivity|]. split; reflexivity.
Qed.

(* ================================================================== *)
(** * Division by zero in binary64 *)

Section Binary64Division.
Local Open Scope float_scope.

Lemma is_zero_Prim2SF (x : float) :
  is_zero x = true -> exists s, Prim2SF x = S754_zero s.
Proof.
  unfold is_zero. rewrite FloatAxioms.eqb_spec.
  change (Prim2SF zero) with (S754_zero false). unfold SFeqb.
  destruct (Prim2SF x) as [s|s| |s m e]; simpl; eauto.
  - destruct s; discriminate.
  - discriminate.
  - destruct s; discriminate.
Qed.

Lemma is_finite_Prim2SF (x : float) :
  is_finite x = match Prim2SF x with
                | S754_nan | S754_infinity _ => false
                | _ => true
                end.
Proof.
  unfold is_finite, is_nan, is_infinity.
  rewrite !FloatAxioms.eqb_spec, abs_spec.
  change (Prim2SF infinity) with (S754_infinity false). unfold SFeqb.
  destruct (Prim2SF x) as [s|s| |s m e]; try reflexivity.
  - now destruct s.
  - destruct s; simpl; now rewrite Z.compare_refl, Pos.compare_cont_refl.
Qed.

(** A quotient by zero is an infinity or NaN, and so is its product by 100. *)
Lemma div_zero_mul_100_not_finite (p r : float) :
  is_zero r = true -> is_finite ((p / r) * 100) = false.
Proof.
  intros Hr. destruct (is_zero_Prim2SF r Hr) as [s Hs].
  rewrite is_finite_Prim2SF, mul_spec, div_spec, Hs.
  change (Prim2SF 100) with (S754_finite false 7036874417766400 (-46)).
  destruct (Prim2SF p) as [sp|sp| |sp mp ep]; reflexivity.
Qed.
End Binary64Division.

Lemma audit_row_margin {F : Type} {arith : Arith F} (df : DataFrame F) hub_code stats row :
  run_audit df hub_code = Some stats -> In row stats ->
  Margin row = ((Profit row / Revenue row) * of_Z 100)%A.
Proof.
  intros Hrun Hin. destruct (audit_row_group _ _ _ _ Hrun Hin) as (g & ct & _ & ->).
  reflexivity.
Qed.

(** C4, amended.  In binary64, margin_pct of every row of an audit is
    profit / revenue * 100 as IEEE division gives it, with no guard; on a row
    whose revenue equals 0 it is therefore not a finite number: an infinity,
    or NaN when the profit is 0 or NaN. *)
Theorem margin_is_the_unguarded_quotient
    (pow : float -> float -> float) (df : DataFrame float) (hub_code : string)
    (stats : list (Route float)) (row : Route float) :
  run_audit (arith := binary64 pow) df hub_code = Some stats ->
  In row stats ->
  Margin row = ((Profit row / Revenue row) * 100)%float /\
  (is_zero (Revenue row) = true -> is_finite (Margin row) = false).
Proof.
  intros Hrun Hin.
  pose proof (audit_row_margin (arith := binary64 pow) _ _ _ _ Hrun Hin) as Hm.
  change (Margin row = ((Profit row / Revenue row) * 100)%float) in Hm.
  split; trivial. intros Hz. rewrite Hm.
  now apply div_zero_mul_100_not_finite.
Qed.

(** [margin_is_the_unguarded_quotient] at the row of [empty_cabin], whose revenue is 0. *)
Lemma margin_is_the_unguarded_quotient_witness :
  run_audit (arith := binary64 pow_exact_cases) empty_cabin "JFK"
    = Some empty_cabin_audit /\
  In empty_cabin_row empty_cabin_audit /\
  is_zero (Revenue empty_cabin_row) = true /\
  Margin empty_cabin_row
    = ((Profit empty_cabin_row / Revenue empty_cabin_row) * 100)%float /\
  is_finite (Margin empty_cabin_row) = false.
Proof.
  assert (Hrun : run_audit (arith := binary64 pow_exact_cases) empty_cabin "JFK"
                 = Some empty_cabin_audit) by (vm_compute; reflexivity).
  assert (Hin : In empty_cabin_row empty_cabin_audit) by (left; reflexivity).
  assert (Hz : is_zero (Revenue empty_cabin_row) = true) by reflexivity.
  destruct (margin_is_the_unguarded_quotient _ _ _ _ _ Hrun Hin) as [Hm Hnf].
  exact (conj Hrun (conj Hin (conj Hz (conj Hm (Hnf Hz))))).
Defined.

(** C4, counterexample.  The one record of [empty_cabin] is within the
    invariants of the loaded table (seats, departures and distance positive)
    and carried no passenger: its revenue is 0 and its margin is the quotient
    of a negative profit by 0, minus infinity, whatever libm's [pow] is
    provided [pow(1, y) = 1] as C99 requires. *)
Lemma margin_of_zero_revenue_is_minus_infinity :
  exists (df : DataFrame float) (hub_code : string),
    forall pow : float -> float -> float,
    (forall y, pow 1%float y = 1%float) ->
    exists stats row,
      run_audit (arith := binary64 pow) df hub_code = Some stats /\
      In row stats /\
      is_zero (Revenue row) = true /\
      Margin row = neg_infinity /\
      is_finite (Margin row) = false.
Proof.
  exists empty_cabin, "JFK"%string. intros pow Hpow.
  eexists. eexists. split; [vm_compute; reflexivity|].
  split; [left; reflexivity|].
  cbn [Margin Revenue fin]. rewrite Hpow. repeat split; reflexivity.
Qed.

(* ================================================================== *)
(** * Market shares *)

Lemma filter_map_comm {A B : Type} (f : B -> bool) (g : A -> B) (l : list A) :
  filter f (map g l) = map g (filter (fun a => f (g a)) l).
Proof.
  induction l as [|a l IH]; simpl; trivial.
  destruct (f (g a)); simpl; now rewrite IH.
Qed.

(** [City_Total] of a row is the sum of [PASSENGERS] over the rows of its
    destination, and [Market_Share] is the row's part of it times 100: in
    every arithmetic. *)
Lemma audit_row_city_total {F : Type} {arith : Arith F}
    (df : DataFrame F) hub_code stats row :
  run_audit df hub_code = Some stats -> In row stats ->
  City_Total row = city_total_passengers (Dest_Label row) stats /\
  Market_Share row = ((PASSENGERS row / City_Total row) * of_Z 100)%A.
Proof.
  intros Hrun Hin.
  split; [|exact (proj1 (audit_row_status _ _ _ _ Hrun Hin))].
  apply run_audit_rows in Hrun. destruct Hrun as [_ ->].
  apply in_map_iff in Hin. destruct Hin as (s & <- & Hs).
  unfold city_total_passengers, rows_of_destination, dest_total.
  rewrite filter_map_comm, map_map. reflexivity.
Qed.

Section ExactShares.
Local Open Scope Qc_scope.


End ExactShares.



(* ================================================================== *)
(** * The forecast engine *)

Lemma StronglySorted_map {A B : Type} (f : A -> B) (R : B -> B -> Prop) (l : list A) :
  StronglySorted (fun a b => R (f a) (f b)) l -> StronglySorted R (map f l).
Proof.
  induction 1 as [|a l Hs IH Hall]; simpl; constructor; trivial.
  rewrite Forall_map. exact Hall.
Qed.





Section ForecastFacts.
Context {F : Type} {arith : Arith F} (rf : Regressor F).




Lemma monthly_nil_iff (route : list (Flight.row F)) :
  monthly_series route = [] <-> route = [].
Proof.
  unfold monthly_series. split.
  - intros E. apply map_eq_nil in E.
    exact (proj1 (groupby_nil_iff period_cmp _ route) E).
  - now intros ->.
Qed.


(** The shape of what [get_forecast] computes, branch by branch. *)
Inductive forecast_outcome (df : DataFrame F) (origin dest : string)
  : result (list (sk_call F) * (option (list (Series.row F)) * string)) -> Prop :=
| Outcome_KeyError :
    city_names df = false ->
    forecast_outcome df origin dest (Raise (KeyError "DEST_CITY_NAME"))
| Outcome_No_Data :
    city_names df = true ->
    select_route df origin dest = [] ->
    forecast_outcome df origin dest (Return ([], (None, "No Data"%string)))
| Outcome_Not_Enough_Data :
    city_names df = true ->
    select_route df origin dest <> [] ->
    (List.length (training_subset (monthly_series (select_route df origin dest))) < 12)%nat ->
    forecast_outcome df origin dest (Return ([], (None, "Not Enough Data"%string)))
| Outcome_Success (last_year : Z) :
    city_names df = true ->
    select_route df origin dest <> [] ->
    (12 <= List.length (training_subset (monthly_series (select_route df origin dest))))%nat ->
    series_max (map (@Monthly.YEAR F) (monthly_series (select_route df origin dest)))
      = Some last_year ->
    let monthly := monthly_series (select_route df origin dest) in
    let clean := training_subset monthly in
    let X := map period clean in
    let y := map (@Monthly.PASSENGERS F) clean in
    let future := map (fun m => (last_year + 1, m)) (range 1 13) in
    forecast_outcome df origin dest
      (Return ([Fit X y; Predict future],
               (Some (map historical monthly
                      ++ map (fun x => {| Series.YEAR := fst x; Series.MONTH := snd x;
                                          Series.PASSENGERS := predict rf (fit rf X y) x;
                                          Series.Type_ := Forecast |}) future),
                "Success"%string))).

Lemma get_forecast_outcome (df : DataFrame F) (origin dest : string) :
  forecast_outcome df origin dest (get_forecast rf df origin dest).
Proof.
  unfold get_forecast.
  destruct (city_names df) eqn:Hc; simpl negb; cbv iota;
    [|now constructor].
  destruct (select_route df origin dest) as [|r route] eqn:Hroute;
    simpl is_empty; cbv iota; [now constructor|].
  rewrite <- Hroute.
  destruct (Nat.ltb_spec
              (List.length (training_subset (monthly_series (select_route df origin dest))))
              12) as [Hlt|Hge].
  - constructor; trivial. rewrite Hroute. discriminate.
  - pose proof (series_max_spec
                  (map (@Monthly.YEAR F)
                       (monthly_series (select_route df origin dest)))) as Hmax.
    destruct (series_max _) as [last_year|] eqn:Em.
    + apply Outcome_Success; trivial. rewrite Hroute. discriminate.
    + apply map_eq_nil in Hmax. rewrite Hmax in Hge. simpl in Hge. lia.
Qed.
End ForecastFacts.


Section ForecastClaims.
Context {F : Type} {arith : Arith F} (rf : Regressor F).



(** C8.  A matched route whose training subset has fewer than 12 monthly
    points gets the status "Not Enough Data" and no series, and the engine
    makes no call to the regressor: no model is fitted, nothing is
    predicted. *)
Theorem fewer_than_12_training_months_is_not_enough_data
    (df : DataFrame F) (origin dest : string) :
  city_names df = true ->
  select_route df origin dest <> [] ->
  (List.length (training_subset (monthly_series (select_route df origin dest))) < 12)%nat ->
  get_forecast rf df origin dest = Return ([], (None, "Not Enough Data"%string)).
Proof.
  intros Hc Hroute Hlt.
  pose proof (get_forecast_outcome rf df origin dest) as Hout.
  inversion Hout as [Hc'|Hc' Hr|Hc' Hr Hl|ly Hc' Hr Hl]; try congruence; lia.
Qed.

End ForecastClaims.

(** [fewer_than_12_training_months_is_not_enough_data] at [eleven_months], which has 11 months outside 2020 and 2021. *)
Lemma fewer_than_12_training_months_is_not_enough_data_witness :
  city_names eleven_months = true /\
  select_route eleven_months "JFK" "London" <> [] /\
  List.length (training_subset
                 (monthly_series (arith := binary64 pow_exact_cases)
                    (select_route eleven_months "JFK" "London"))) = 11%nat /\
  get_forecast (arith := binary64 pow_exact_cases) mean_regressor
               eleven_months "JFK" "London"
  = Return ([], (None, "Not Enough Data"%string)).
Proof.
  assert (Hc : city_names eleven_months = true) by reflexivity.
  assert (Hr : select_route eleven_months "JFK" "London" <> [])
    by (vm_compute; discriminate).
  assert (Hn : List.length (training_subset
                 (monthly_series (arith := binary64 pow_exact_cases)
                    (select_route eleven_months "JFK" "London"))) = 11%nat)
    by (vm_compute; reflexivity).
  refine (conj Hc (conj Hr (conj Hn
            (fewer_than_12_training_months_is_not_enough_data
               (arith := binary64 pow_exact_cases) mean_regressor
               eleven_months "JFK" "London" Hc Hr _)))).
  rewrite Hn. repeat constructor.
Defined.



(* ================================================================== *)
(** * Matching the route, and tables without city names *)

Section RouteMatching.
Context {F : Type} {arith : Arith F} (rf : Regressor F).

(** X10.  On a table that has the city-name column the engine matches the
    destination against it, then against the airport code, and answers
    "No Data" exactly when both selections are empty; it raises nothing. *)
Lemma forecast_matches_city_then_code (df : DataFrame F) (origin dest : string) :
  city_names df = true ->
  let by_city := filter (fun r => (Flight.ORIGIN r =? origin)%string
                                  && (Flight.DEST_CITY_NAME r =? dest)%string)
                        (records df) in
  let by_code := filter (fun r => (Flight.ORIGIN r =? origin)%string
                                  && (Flight.DEST r =? dest)%string)
                        (records df) in
  select_route df origin dest = (if is_empty by_city then by_code else by_city) /\
  (get_forecast rf df origin dest = Return ([], (None, "No Data"%string))
   <-> by_city = [] /\ by_code = []) /\
  (exists calls series status,
     get_forecast rf df origin dest = Return (calls, (series, status))).
Proof.
  intros Hc by_city by_code.
  assert (Hsel : select_route df origin dest
                 = if is_empty by_city then by_code else by_city) by reflexivity.
  clearbody by_city by_code.
  assert (Hnil : select_route df origin dest = [] <-> by_city = [] /\ by_code = []).
  { rewrite Hsel. destruct by_city as [|r l]; simpl.
    - tauto.
    - split; intros E; [discriminate E|destruct E as [E _]; discriminate E]. }
  split; [exact Hsel|].
  pose proof (get_forecast_outcome rf df origin dest) as Hout.
  split.
  - rewrite <- Hnil.
    inversion Hout as [Hc' Heq|Hc' Hr Heq|Hc' Hr Hl Heq|ly Hc' Hr Hl Hmax Heq];
      try congruence.
    + tauto.
    + split; [discriminate|contradiction].
    + split; [discriminate|contradiction].
  - inversion Hout as [Hc' Heq|Hc' Hr Heq|Hc' Hr Hl Heq|ly Hc' Hr Hl Hmax Heq];
      try congruence; eauto.
Qed.

(** C6, at the failing input.  On a table that has no city-name column, as
    [load_data] accepts them, indexing [df['DEST_CITY_NAME']] raises
    [KeyError] before any matching: the engine does not retry on the code
    and does not return "No Data". *)
Theorem forecast_raises_without_city_name_column
    (df : DataFrame F) (origin dest : string) :
  city_names df = false ->
  get_forecast rf df origin dest = Raise (KeyError "DEST_CITY_NAME").
Proof.
  intros Hc. unfold get_forecast. now rewrite Hc.
Qed.

(** On a loaded table that has the city-name column, every destination of an
    audit is matched by the forecast engine for the same hub: it returns, and
    its status is not "No Data". *)
Lemma forecast_of_audit_destination_is_matched
    (raw : DataFrame F) (hub_code : string) (stats : list (Route F)) (row : Route F) :
  city_names raw = true ->
  run_audit (map_Dest_Label raw) hub_code = Some stats ->
  In row stats ->
  exists calls series status,
    get_forecast rf (map_Dest_Label raw) hub_code (Dest_Label row)
      = Return (calls, (series, status)) /\
    status <> "No Data"%string.
Proof.
  intros Hc Hrun Hin. set (df := map_Dest_Label raw) in *.
  assert (Hne : reference_group df hub_code (route_key row) <> []).
  { apply (audit_key_groups df hub_code stats Hrun). now apply in_map. }
  destruct (reference_group df hub_code (route_key row)) as [|r g] eqn:E;
    [easy|clear Hne].
  assert (Hr : In r (reference_group df hub_code (route_key row)))
    by (rewrite E; now left).
  apply filter_In in Hr. destruct Hr as [Hr Hlab].
  apply hub_data_In in Hr. destruct Hr as (Hr & _ & Ho).
  rewrite !andb_true_iff, !String.eqb_eq in Hlab.
  destruct Hlab as [[_ Hd] _]. simpl in Hd.
  assert (Hcity : Flight.DEST_CITY_NAME r = Dest_Label row).
  { rewrite <- Hd. unfold df, map_Dest_Label in Hr. simpl in Hr.
    apply in_map_iff in Hr. destruct Hr as (r0 & <- & _). simpl.
    now rewrite Hc. }
  assert (Hsel : select_route df hub_code (Dest_Label row) <> []).
  { unfold select_route.
    destruct (filter _ (records df)) as [|r1 l] eqn:Ef; [|discriminate].
    assert (Hf : In r (filter (fun r => (Flight.ORIGIN r =? hub_code)%string
                                && (Flight.DEST_CITY_NAME r =? Dest_Label row)%string)
                              (records df))).
    { apply filter_In. split; trivial.
      rewrite andb_true_iff, !String.eqb_eq. auto. }
    rewrite Ef in Hf. destruct Hf. }
  pose proof (get_forecast_outcome rf df hub_code (Dest_Label row)) as Hout.
  inversion Hout as [Hc'|Hc' Hr'|Hc' Hr' Hl|ly Hc' Hr' Hl Hmax].
  - unfold df in Hc'. simpl in Hc'. congruence.
  - contradiction.
  - do 3 eexists. split; [reflexivity|discriminate].
  - do 3 eexists. split; [reflexivity|discriminate].
Qed.
End RouteMatching.

(** [forecast_raises_without_city_name_column] at [codes_only]. *)
Lemma forecast_raises_without_city_name_column_witness :
  city_names codes_only = false /\
  get_forecast (arith := binary64 pow_exact_cases) mean_regressor
               codes_only "JFK" "LHR"
  = Raise (KeyError "DEST_CITY_NAME").
Proof.
  assert (Hc : city_names codes_only = false) by reflexivity.
  exact (conj Hc (forecast_raises_without_city_name_column
                    (arith := binary64 pow_exact_cases) mean_regressor
                    codes_only "JFK" "LHR" Hc)).
Defined.

(* ================================================================== *)
(** * The engines on the example tables *)

(** C10, at the failing input.  [codes_only] is a table as [load_data]
    labels it; its audit at JFK has a row for the destination "LHR"; the
    forecast for JFK and that destination raises [KeyError], for every
    regressor. *)
Theorem forecast_of_an_audit_destination_raises :
  exists stats row,
    run_audit (arith := binary64 pow_exact_cases) codes_only "JFK" = Some stats /\
    In row stats /\
    Dest_Label row = "LHR"%string /\
    forall rf : Regressor float,
      get_forecast (arith := binary64 pow_exact_cases) rf codes_only "JFK"
                   (Dest_Label row)
      = Raise (KeyError "DEST_CITY_NAME").
Proof.
  eexists. eexists. split; [vm_compute; reflexivity|].
  split; [left; reflexivity|]. split; [reflexivity|].
  intros rf. reflexivity.
Qed.

(** The example forecast has the 12 months of 2020 among its Historical
    points, none of them in the training set, and 2023 as forecast year. *)
Example three_years_forecast_shape :
  (exists X y, three_years_calls
               = [Fit X y; Predict (map (fun m => (2023, m)) (range 1 13))] /\
               List.length X = 18%nat /\
               existsb (fun p => (fst p =? 2020) || (fst p =? 2021)) X = false) /\
  (exists rows, three_years_series = Some rows /\
                List.length rows = 42%nat /\
                List.length (filter (fun p => Series.YEAR p =? 2020) rows) = 12%nat).
Proof.
  split.
  - eexists. eexists. split; [reflexivity|]. split; reflexivity.
  - eexists. split; [reflexivity|]. split; reflexivity.
Qed.

(** The literals of the financial formulas are the floats Python reads. *)
Example decimal_literals :
  dec (arith := binary64 pow_exact_cases) 6 1 = 0x1.3333333333333p-1%float /\
  dec (arith := binary64 pow_exact_cases) (-15) 2 = (-0x1.3333333333333p-3)%float /\
  dec (arith := binary64 pow_exact_cases) 5 1 = 0.5%float /\
  dec (arith := binary64 pow_exact_cases) 280 2 = 0x1.6666666666666p+1%float /\
  (@of_Z _ (binary64 pow_exact_cases) 5500
   + @of_Z _ (binary64 pow_exact_cases) 850
     * dec (arith := binary64 pow_exact_cases) 280 2)%float = 7880%float.
Proof. repeat split; reflexivity. Qed.

(** The audit of [jfk_london]: at JFK, AA holds two thirds of London and is a
    Monopoly, BA one third and is Competitive; at BOS, whose only record is
    of 2022 while the table goes to 2023, there is no result. *)
Example jfk_london_statuses :
  run_audit (arith := binary64 pow_exact_cases) jfk_london "JFK"
    = Some jfk_london_audit /\
  map (fun row : Route float => (Airline_Label row, City_Total row, Status row))
      jfk_london_audit
    = [("AA"%string, 1500%float, Monopoly); ("BA"%string, 1500%float, Competitive)] /\
  run_audit (arith := binary64 pow_exact_cases) jfk_london "BOS" = None.
Proof. repeat split; vm_compute; reflexivity. Qed.

(** In exact arithmetic the revenue is also the product associated from the
    left, [passengers * distance * yield_rate]. *)
Lemma revenue_product_exact (pow : Qc -> Qc -> Qc) (df : DataFrame Qc)
    (hub_code : string) (stats : list (Route Qc)) (row : Route Qc) :
  run_audit (arith := exact pow) df hub_code = Some stats -> In row stats ->
  Revenue row = (PASSENGERS row * DISTANCE row * Yield row)%Qc.
Proof.
  intros Hrun Hin.
  destruct (audit_row_group (arith := exact pow) _ _ _ _ Hrun Hin)
    as (g & ct & _ & ->).
  cbn [Revenue Yield PASSENGERS DISTANCE fin agg market_position financials fst].
  cbn [fmul exact]. ring.
Qed.

(** In binary64 a row whose share is NaN has the default of [np.select]. *)
Lemma status_of_nan_share (pow : float -> float -> float) (df : DataFrame float)
    (hub_code : string) (stats : list (Route float)) (row : Route float) :
  run_audit (arith := binary64 pow) df hub_code = Some stats -> In row stats ->
  is_nan (Market_Share row) = true -> Status row = Default_0.
Proof.
  intros Hrun Hin Hn.
  destruct (audit_row_status (arith := binary64 pow) _ _ _ _ Hrun Hin) as [_ ->].
  now apply classify_nan.
Qed.

(** In binary64 the shares of London in [jfk_london], 66.66... and 33.33...,
    sum to 100 up to rounding. *)
Example jfk_london_shares_sum :
  map (@Market_Share float) jfk_london_audit
    = [0x1.0aaaaaaaaaaaap+6%float; 0x1.0aaaaaaaaaaaap+5%float] /\
  PrimFloat.leb
    (abs (share_sum (arith := binary64 pow_exact_cases) "London" jfk_london_audit
          - 100)%float)
    0x1p-40%float = true.
Proof. split; vm_compute; reflexivity. Qed.

(** The engine reads [last_year] only where [monthly] is not empty: the
    branch of [get_forecast] for an empty [monthly] past the length check is
    dead. *)
Lemma last_year_is_defined {F : Type} {arith : Arith F}
    (route : list (Flight.row F)) :
  (12 <= List.length (training_subset (monthly_series route)))%nat ->
  exists last_year,
    series_max (map (@Monthly.YEAR F) (monthly_series route)) = Some last_year.
Proof.
  intros Hge.
  pose proof (series_max_spec (map (@Monthly.YEAR F) (monthly_series route))) as Hm.
  destruct (series_max _) as [y|]; [eauto|].
  apply map_eq_nil in Hm. rewrite Hm in Hge. simpl in Hge. lia.
Qed.

(* ================================================================== *)
(** * Further properties of the audit *)

Section GroupBySize.
Context {K R : Type} (cmp : K -> K -> comparison) (key : R -> K).


End GroupBySize.

Lemma StronglySorted_of_map {A B : Type} (f : A -> B) (R : B -> B -> Prop) (l : list A) :
  StronglySorted R (map f l) -> StronglySorted (fun a b => R (f a) (f b)) l.
Proof.
  induction l as [|a l IH]; simpl; intros Hs; [constructor|].
  inversion_clear Hs as [|? ? Hl Hall]. constructor; [now apply IH|].
  now rewrite Forall_map in Hall.
Qed.

Section AuditShape.
Context {F : Type} {arith : Arith F}.


(** X2.  The rows of an audit come in strictly ascending order of
    (Region, Dest_Label, Airline_Label), compared as tuples of strings. *)
Theorem audit_rows_are_sorted_by_key
    (df : DataFrame F) (hub_code : string) (stats : list (Route F)) :
  run_audit df hub_code = Some stats ->
  StronglySorted (fun a b => key_cmp (route_key a) (route_key b) = Lt) stats.
Proof.
  intros Hrun.
  apply (StronglySorted_of_map (@route_key F) (fun a b => key_cmp a b = Lt)).
  rewrite (audit_keys _ _ _ Hrun). apply StronglySorted_map.
  exact (groupby_sorted key_cmp _ _).
Qed.
End AuditShape.


(** [audit_rows_are_sorted_by_key] on [jfk_london]. *)
Lemma audit_rows_are_sorted_by_key_witness :
  run_audit (arith := binary64 pow_exact_cases) jfk_london "JFK"
    = Some jfk_london_audit /\
  StronglySorted (fun a b => key_cmp (route_key a) (route_key b) = Lt)
                 jfk_london_audit.
Proof.
  assert (Hrun : run_audit (arith := binary64 pow_exact_cases) jfk_london "JFK"
                 = Some jfk_london_audit) by (vm_compute; reflexivity).
  exact (conj Hrun (audit_rows_are_sorted_by_key _ _ _ Hrun)).
Defined.

(** X3.  In binary64 a row has the default of [np.select] for status exactly when
    its market share is NaN. *)
Theorem default_status_iff_nan_share
    (pow : float -> float -> float) (df : DataFrame float) (hub_code : string)
    (stats : list (Route float)) (row : Route float) :
  run_audit (arith := binary64 pow) df hub_code = Some stats ->
  In row stats ->
  (Status row = Default_0 <-> is_nan (Market_Share row) = true).
Proof.
  intros Hrun Hin.
  destruct (audit_row_status (arith := binary64 pow) _ _ _ _ Hrun Hin) as [_ ->].
  destruct (is_nan (Market_Share row)) eqn:Hn.
  - split; trivial. intros _. now apply classify_nan.
  - destruct (classify_number pow _ Hn) as [Hs _].
    split; [|discriminate]. intros E. rewrite E in Hs. discriminate Hs.
Qed.

(** [default_status_iff_nan_share] on the row of [empty_cabin]. *)
Lemma default_status_iff_nan_share_witness :
  run_audit (arith := binary64 pow_exact_cases) empty_cabin "JFK"
    = Some empty_cabin_audit /\
  In empty_cabin_row empty_cabin_audit /\
  Status empty_cabin_row = Default_0 /\
  is_nan (Market_Share empty_cabin_row) = true.
Proof.
  assert (Hrun : run_audit (arith := binary64 pow_exact_cases) empty_cabin "JFK"
                 = Some empty_cabin_audit) by (vm_compute; reflexivity).
  assert (Hin : In empty_cabin_row empty_cabin_audit) by (left; reflexivity).
  assert (Hn : is_nan (Market_Share empty_cabin_row) = true) by reflexivity.
  exact (conj Hrun (conj Hin
           (conj (proj2 (default_status_iff_nan_share _ _ _ _ _ Hrun Hin) Hn) Hn))).
Defined.

(* ================================================================== *)
(** * Market shares in exact arithmetic *)

Section ExactSums.
Local Open Scope Qc_scope.

Definition qsum (l : list Qc) : Qc := fold_left Qcplus l 0.

Lemma fold_Qcplus_shift (l : list Qc) (a : Qc) :
  fold_left Qcplus l a = a + qsum l.
Proof.
  unfold qsum. revert a. induction l as [|x l IH]; intros a; simpl; [ring|].
  rewrite (IH (a + x)), (IH (0 + x)). ring.
Qed.

Lemma qsum_cons (x : Qc) (l : list Qc) : qsum (x :: l) = x + qsum l.
Proof.
  unfold qsum at 1. simpl. rewrite fold_Qcplus_shift. ring.
Qed.

Lemma Qcplus_nonneg (x y : Qc) : 0 <= x -> 0 <= y -> 0 <= x + y.
Proof.
  intros Hx Hy. replace 0 with (0 + 0) by ring. now apply Qcplus_le_compat.
Qed.

Lemma qsum_nonneg (l : list Qc) :
  (forall x, In x l -> 0 <= x) -> 0 <= qsum l.
Proof.
  induction l as [|x l IH]; intros Hl.
  - apply Qcle_refl.
  - rewrite qsum_cons. apply Qcplus_nonneg; [apply Hl; now left|].
    apply IH. intros y Hy. apply Hl. now right.
Qed.

Lemma qsum_ge_element {A : Type} (f : A -> Qc) (l : list A) (a : A) :
  (forall x, In x l -> 0 <= f x) -> In a l -> f a <= qsum (map f l).
Proof.
  induction l as [|x l IH]; intros Hl Hin; [destruct Hin|].
  simpl map. rewrite qsum_cons.
  assert (Hrest : 0 <= qsum (map f l)).
  { apply qsum_nonneg. intros y Hy. apply in_map_iff in Hy.
    destruct Hy as (z & <- & Hz). apply Hl. now right. }
  destruct Hin as [->|Hin].
  - replace (f a) with (f a + 0) at 1 by ring.
    apply Qcplus_le_compat; [apply Qcle_refl|exact Hrest].
  - replace (f a) with (0 + f a) by ring.
    apply Qcplus_le_compat; [apply Hl; now left|].
    apply IH; trivial. intros y Hy. apply Hl. now right.
Qed.

Lemma qsum_ge_two {A : Type} (f : A -> Qc) (l : list A) (a b : A) :
  (forall x, In x l -> 0 <= f x) -> In a l -> In b l -> a <> b ->
  f a + f b <= qsum (map f l).
Proof.
  induction l as [|x l IH]; intros Hl Ha Hb Hab; [destruct Ha|].
  simpl map. rewrite qsum_cons.
  assert (Hl' : forall y, In y l -> 0 <= f y) by (intros y Hy; apply Hl; now right).
  destruct Ha as [->|Ha], Hb as [->|Hb].
  - now destruct Hab.
  - apply Qcplus_le_compat; [apply Qcle_refl|now apply qsum_ge_element].
  - rewrite Qcplus_comm.
    apply Qcplus_le_compat; [apply Qcle_refl|now apply qsum_ge_element].
  - replace (f a + f b) with (0 + (f a + f b)) by ring.
    apply Qcplus_le_compat; [apply Hl; now left|now apply IH].
Qed.
End ExactSums.

Section ExactShareFacts.
Local Open Scope Qc_scope.
Variable pow : Qc -> Qc -> Qc.

Lemma Qcplus_lt_le_compat (x y z t : Qc) : x < y -> z <= t -> x + z < y + t.
Proof.
  unfold Qclt, Qcle. intros H1 H2.
  change (Qred (x + z) < Qred (y + t))%Q.
  rewrite !Qred_correct. now apply Qplus_lt_le_compat.
Qed.

Lemma Qc_50_50 : Q2Qc (inject_Z 50) + Q2Qc (inject_Z 50) = Q2Qc (inject_Z 100).
Proof. apply Qc_is_canon. reflexivity. Qed.

Lemma Qc_0_le_100 : 0 <= Q2Qc (inject_Z 100).
Proof. unfold Qcle, Qle. simpl. lia. Qed.

(** The passengers of a row of an audit are those of records of the hub. *)
Lemma audit_passengers_nonneg (df : DataFrame Qc) hub_code stats row :
  run_audit (arith := exact pow) df hub_code = Some stats ->
  (forall r, In r (hub_data df hub_code) -> 0 <= Flight.PASSENGERS r) ->
  In row stats ->
  0 <= PASSENGERS row.
Proof.
  intros Hrun Hpos Hin.
  destruct (audit_row_group (arith := exact pow) _ _ _ _ Hrun Hin)
    as ([k g] & ct & Hg & ->).
  destruct (proj1 (groupby_In key_cmp group_key _ _ _) Hg) as [-> _].
  change (0 <= qsum (map (@Flight.PASSENGERS Qc)
                         (filter (has_key key_cmp group_key k)
                                 (hub_data df hub_code)))).
  apply qsum_nonneg. intros x Hx. apply in_map_iff in Hx.
  destruct Hx as (r & <- & Hr). apply filter_In in Hr. now apply Hpos.
Qed.

Lemma audit_city_total_bounds (df : DataFrame Qc) hub_code stats row :
  run_audit (arith := exact pow) df hub_code = Some stats ->
  (forall r, In r (hub_data df hub_code) -> 0 <= Flight.PASSENGERS r) ->
  In row stats ->
  City_Total row = qsum (map (fun r : Route Qc => PASSENGERS r)
                             (rows_of_destination (Dest_Label row) stats)) /\
  0 <= PASSENGERS row /\ PASSENGERS row <= City_Total row.
Proof.
  intros Hrun Hpos Hin.
  destruct (audit_row_city_total (arith := exact pow) _ _ _ _ Hrun Hin) as [Hct _].
  assert (Hall : forall r, In r (rows_of_destination (Dest_Label row) stats) ->
                           0 <= PASSENGERS r).
  { intros r Hr. apply filter_In in Hr.
    apply (audit_passengers_nonneg df hub_code stats); tauto. }
  split; [exact Hct|]. split.
  - now apply (audit_passengers_nonneg df hub_code stats).
  - rewrite Hct.
    apply (qsum_ge_element (fun r : Route Qc => PASSENGERS r)); trivial.
    apply filter_In. split; trivial. apply String.eqb_refl.
Qed.

Lemma share_times_total (p t : Qc) :
  t <> 0 -> p / t * Q2Qc (inject_Z 100) * t = p * Q2Qc (inject_Z 100).
Proof. intros Ht. field. exact Ht. Qed.

(** X4.  In exact arithmetic, when no record of the hub has a negative passenger
    count, the market share of a row whose destination has passengers lies
    between 0 and 100. *)
Theorem market_share_is_a_percentage
    (df : DataFrame Qc) (hub_code : string)
    (stats : list (Route Qc)) (row : Route Qc) :
  run_audit (arith := exact pow) df hub_code = Some stats ->
  (forall r, In r (hub_data df hub_code) -> 0 <= Flight.PASSENGERS r) ->
  In row stats ->
  City_Total row <> 0 ->
  0 <= Market_Share row /\ Market_Share row <= Q2Qc (inject_Z 100).
Proof.
  intros Hrun Hpos Hin Hne.
  destruct (audit_city_total_bounds _ _ _ _ Hrun Hpos Hin) as (_ & Hp & Hle).
  destruct (audit_row_city_total (arith := exact pow) _ _ _ _ Hrun Hin) as [_ Hms].
  change (Market_Share row
          = PASSENGERS row / City_Total row * Q2Qc (inject_Z 100)) in Hms.
  assert (Ht : 0 < City_Total row).
  { destruct (Qcle_lt_or_eq _ _ (Qcle_trans _ _ _ Hp Hle)) as [Hlt|E]; trivial.
    now destruct Hne. }
  rewrite Hms. split.
  - apply (Qcmult_lt_0_le_reg_r _ _ _ Ht).
    rewrite share_times_total by exact Hne. rewrite Qcmult_0_l.
    rewrite <- (Qcmult_0_l (Q2Qc (inject_Z 100))).
    apply Qcmult_le_compat_r; [exact Hp|exact Qc_0_le_100].
  - apply (Qcmult_lt_0_le_reg_r _ _ _ Ht).
    rewrite share_times_total by exact Hne.
    rewrite (Qcmult_comm (Q2Qc (inject_Z 100))).
    apply Qcmult_le_compat_r; [exact Hle|exact Qc_0_le_100].
Qed.

Lemma classify_exact_monopoly (ms : Qc) :
  classify (arith := exact pow) ms = Monopoly <-> Q2Qc (inject_Z 50) < ms.
Proof.
  rewrite Qclt_alt. unfold classify. simpl.
  destruct (Q2Qc (inject_Z 50) ?= ms); simpl.
  - split; [|discriminate].
    destruct (Q2Qc (inject_Z 20) ?= ms), (ms ?= Q2Qc (inject_Z 50)),
      (ms ?= Q2Qc (inject_Z 20)); simpl; discriminate.
  - tauto.
  - split; [|discriminate].
    destruct (Q2Qc (inject_Z 20) ?= ms), (ms ?= Q2Qc (inject_Z 50)),
      (ms ?= Q2Qc (inject_Z 20)); simpl; discriminate.
Qed.

(** Two rows of one destination cannot both hold more than half of it. *)
Lemma monopoly_has_no_rival
    (df : DataFrame Qc) (hub_code : string)
    (stats : list (Route Qc)) (r1 r2 : Route Qc) :
  run_audit (arith := exact pow) df hub_code = Some stats ->
  (forall r, In r (hub_data df hub_code) -> 0 <= Flight.PASSENGERS r) ->
  In r1 stats -> In r2 stats ->
  Dest_Label r1 = Dest_Label r2 ->
  r1 <> r2 ->
  Status r1 = Monopoly ->
  Status r2 <> Monopoly.
Proof.
  intros Hrun Hpos H1 H2 Hd Hne Hm1 Hm2.
  destruct (audit_city_total_bounds _ _ _ _ Hrun Hpos H1) as (Hct1 & Hp1 & Hle1).
  destruct (audit_city_total_bounds _ _ _ _ Hrun Hpos H2) as (Hct2 & Hp2 & Hle2).
  destruct (audit_row_status (arith := exact pow) _ _ _ _ Hrun H1) as [Hs1 Hc1].
  destruct (audit_row_status (arith := exact pow) _ _ _ _ Hrun H2) as [Hs2 Hc2].
  rewrite Hc1 in Hm1. rewrite Hc2 in Hm2.
  apply classify_exact_monopoly in Hm1, Hm2.
  change (Market_Share r1 = PASSENGERS r1 / City_Total r1 * Q2Qc (inject_Z 100)) in Hs1.
  change (Market_Share r2 = PASSENGERS r2 / City_Total r2 * Q2Qc (inject_Z 100)) in Hs2.
  assert (Ht : City_Total r2 = City_Total r1) by (rewrite Hct1, Hct2, Hd; reflexivity).
  rewrite Ht in Hs2, Hle2. set (T := City_Total r1) in *.
  assert (Hsum : PASSENGERS r1 + PASSENGERS r2 <= T).
  { rewrite Hct1.
    apply (qsum_ge_two (fun r : Route Qc => PASSENGERS r)); trivial.
    - intros r Hr. apply filter_In in Hr.
      apply (audit_passengers_nonneg df hub_code stats); tauto.
    - apply filter_In. split; trivial. apply String.eqb_refl.
    - apply filter_In. split; trivial. rewrite Hd. apply String.eqb_refl. }
  assert (HT : T <> 0).
  { intros E. rewrite Hs1, E in Hm1. unfold Qcdiv in Hm1.
    replace (PASSENGERS r1 * / 0 * Q2Qc (inject_Z 100)) with 0 in Hm1
      by (change (/ 0) with 0; ring).
    revert Hm1. apply Qcle_not_lt. unfold Qcle, Qle. simpl. lia. }
  assert (Hpos' : 0 < T).
  { destruct (Qcle_lt_or_eq _ _ (Qcle_trans _ _ _ Hp1 Hle1)) as [Hlt|E]; trivial.
    now destruct HT. }
  assert (Hb1 : Q2Qc (inject_Z 50) * T < PASSENGERS r1 * Q2Qc (inject_Z 100)).
  { rewrite <- (share_times_total _ _ HT), <- Hs1.
    now apply Qcmult_lt_compat_r. }
  assert (Hb2 : Q2Qc (inject_Z 50) * T < PASSENGERS r2 * Q2Qc (inject_Z 100)).
  { rewrite <- (share_times_total _ _ HT), <- Hs2.
    now apply Qcmult_lt_compat_r. }
  pose proof (Qcplus_lt_le_compat _ _ _ _ Hb1 (Qclt_le_weak _ _ Hb2)) as Hlt.
  revert Hlt. apply Qcle_not_lt.
  replace (Q2Qc (inject_Z 50) * T + Q2Qc (inject_Z 50) * T)
    with (T * Q2Qc (inject_Z 100)) by (rewrite <- Qc_50_50; ring).
  rewrite <- Qcmult_plus_distr_l.
  apply Qcmult_le_compat_r; [exact Hsum|exact Qc_0_le_100].
Qed.

(** X6.  In exact arithmetic, a row that is the only one of its destination, with
    passengers, has a market share of exactly 100 and the status Monopoly. *)
Theorem sole_airline_is_a_monopoly
    (df : DataFrame Qc) (hub_code : string)
    (stats : list (Route Qc)) (row : Route Qc) :
  run_audit (arith := exact pow) df hub_code = Some stats ->
  In row stats ->
  rows_of_destination (Dest_Label row) stats = [row] ->
  PASSENGERS row <> 0 ->
  Market_Share row = Q2Qc (inject_Z 100) /\ Status row = Monopoly.
Proof.
  intros Hrun Hin Hsole Hne.
  destruct (audit_row_city_total (arith := exact pow) _ _ _ _ Hrun Hin) as [Hct Hms].
  destruct (audit_row_status (arith := exact pow) _ _ _ _ Hrun Hin) as [_ Hst].
  unfold city_total_passengers in Hct. rewrite Hsole in Hct.
  change (City_Total row = 0 + PASSENGERS row) in Hct.
  change (Market_Share row
          = PASSENGERS row / City_Total row * Q2Qc (inject_Z 100)) in Hms.
  assert (E : Market_Share row = Q2Qc (inject_Z 100)).
  { rewrite Hms, Hct. field. rewrite Qcplus_0_l in *. exact Hne. }
  split; [exact E|]. rewrite Hst, E. reflexivity.
Qed.
End ExactShareFacts.

Lemma jfk_london_exact_passengers (r : Flight.row Qc) :
  In r (hub_data jfk_london_exact "JFK") -> (0 <= Flight.PASSENGERS r)%Qc.
Proof.
  intros Hr. vm_compute in Hr.
  destruct Hr as [<-|[<-|[]]]; unfold Qcle, Qle; simpl; lia.
Qed.

(** [market_share_is_a_percentage] on the row of AA in [jfk_london_exact]. *)
Lemma market_share_is_a_percentage_witness :
  run_audit (arith := exact pow_stand_in) jfk_london_exact "JFK"
    = Some jfk_london_exact_audit /\
  (forall r, In r (hub_data jfk_london_exact "JFK") ->
             (0 <= Flight.PASSENGERS r)%Qc) /\
  In jfk_london_exact_AA jfk_london_exact_audit /\
  City_Total jfk_london_exact_AA <> Q2Qc (inject_Z 0) /\
  (Q2Qc (inject_Z 0) <= Market_Share jfk_london_exact_AA)%Qc /\
  (Market_Share jfk_london_exact_AA <= Q2Qc (inject_Z 100))%Qc.
Proof.
  assert (Hrun : run_audit (arith := exact pow_stand_in) jfk_london_exact "JFK"
                 = Some jfk_london_exact_audit) by (vm_compute; reflexivity).
  assert (Hin : In jfk_london_exact_AA jfk_london_exact_audit)
    by (left; reflexivity).
  assert (Hne : City_Total jfk_london_exact_AA <> Q2Qc (inject_Z 0))
    by (intros E; apply (f_equal this) in E; vm_compute in E; discriminate E).
  exact (conj Hrun (conj jfk_london_exact_passengers (conj Hin (conj Hne
           (market_share_is_a_percentage _ _ _ _ _ Hrun
              jfk_london_exact_passengers Hin Hne))))).
Defined.

(** [sole_airline_is_a_monopoly] on the one row of [jfk_paris_exact]. *)
Lemma sole_airline_is_a_monopoly_witness :
  run_audit (arith := exact pow_stand_in) jfk_paris_exact "JFK"
    = Some jfk_paris_exact_audit /\
  In jfk_paris_exact_AF jfk_paris_exact_audit /\
  rows_of_destination (Dest_Label jfk_paris_exact_AF) jfk_paris_exact_audit
    = [jfk_paris_exact_AF] /\
  PASSENGERS jfk_paris_exact_AF <> Q2Qc (inject_Z 0) /\
  Market_Share jfk_paris_exact_AF = Q2Qc (inject_Z 100) /\
  Status jfk_paris_exact_AF = Monopoly.
Proof.
  assert (Hrun : run_audit (arith := exact pow_stand_in) jfk_paris_exact "JFK"
                 = Some jfk_paris_exact_audit) by (vm_compute; reflexivity).
  assert (Hin : In jfk_paris_exact_AF jfk_paris_exact_audit)
    by (left; reflexivity).
  assert (Hsole : rows_of_destination (Dest_Label jfk_paris_exact_AF)
                    jfk_paris_exact_audit = [jfk_paris_exact_AF])
    by reflexivity.
  assert (Hne : PASSENGERS jfk_paris_exact_AF <> Q2Qc (inject_Z 0))
    by (intros E; apply (f_equal this) in E; vm_compute in E; discriminate E).
  exact (conj Hrun (conj Hin (conj Hsole (conj Hne
           (sole_airline_is_a_monopoly _ _ _ _ _ Hrun Hin Hsole Hne))))).
Defined.

(* ================================================================== *)
(** * Further properties of the forecast *)

Section ForecastShape.
Context {F : Type} {arith : Arith F} (rf : Regressor F).





(** X8.  The regressor is called not at all or twice: a fit on at least 12 points,
    with as many targets as samples, then one prediction for 12 months; and
    it is called exactly when the status is "Success". *)
Theorem regressor_is_fitted_on_12_points_or_not_called
    (df : DataFrame F) (origin dest : string)
    (calls : list (sk_call F)) (series : option (list (Series.row F)))
    (status : string) :
  get_forecast rf df origin dest = Return (calls, (series, status)) ->
  (calls = [] /\ series = None /\ status <> "Success"%string) \/
  (exists X y future,
     calls = [Fit X y; Predict future] /\
     List.length X = List.length y /\
     (12 <= List.length X)%nat /\
     List.length future = 12%nat /\
     series <> None /\ status = "Success"%string).
Proof.
  intros Hget.
  pose proof (get_forecast_outcome rf df origin dest) as Hout.
  rewrite Hget in Hout.
  inversion Hout as [|Hc Hr|Hc Hr Hl|last_year Hc Hr Hl Hmax].
  - left. repeat split; discriminate.
  - left. repeat split; discriminate.
  - right.
    exists (map period (training_subset (monthly_series (select_route df origin dest)))),
      (map (@Monthly.PASSENGERS F)
           (training_subset (monthly_series (select_route df origin dest)))),
      (map (fun m => (last_year + 1, m)) (range 1 13)).
    split; [reflexivity|]. rewrite !length_map.
    repeat split; trivial; discriminate.
Qed.

(** X9.  Records of other routes (another origin, or a destination that is the
    label neither by city nor by code) do not change a forecast. *)
Theorem forecast_ignores_other_routes
    (df : DataFrame F) (others : list (Flight.row F)) (origin dest : string) :
  (forall r, In r others ->
     Flight.ORIGIN r <> origin \/
     (Flight.DEST_CITY_NAME r <> dest /\ Flight.DEST r <> dest)) ->
  get_forecast rf {| city_names := city_names df;
                     records := records df ++ others |} origin dest
  = get_forecast rf df origin dest.
Proof.
  intros Hothers.
  assert (Hsel : select_route {| city_names := city_names df;
                                 records := records df ++ others |} origin dest
                 = select_route df origin dest).
  { unfold select_route. simpl records. rewrite !filter_app.
    rewrite (filter_nil_iff _ others), (filter_nil_iff _ others).
    - now rewrite !app_nil_r.
    - intros r Hr. apply andb_false_iff.
      destruct (Hothers r Hr) as [Ho|[_ Hd]];
        [left|right]; now apply String.eqb_neq.
    - intros r Hr. apply andb_false_iff.
      destruct (Hothers r Hr) as [Ho|[Hd _]];
        [left|right]; now apply String.eqb_neq. }
  unfold get_forecast. rewrite Hsel. reflexivity.
Qed.
End ForecastShape.


(** [regressor_is_fitted_on_12_points_or_not_called] at the forecast for JFK
    to London on [three_years]. *)
Lemma regressor_is_fitted_on_12_points_or_not_called_witness :
  get_forecast (arith := binary64 pow_exact_cases) mean_regressor
               three_years "JFK" "London"
  = Return (three_years_calls, (three_years_series, "Success"%string)) /\
  ((three_years_calls = [] /\ three_years_series = None /\
    "Success"%string <> "Success"%string) \/
   (exists X y future,
      three_years_calls = [Fit X y; Predict future] /\
      List.length X = List.length y /\
      (12 <= List.length X)%nat /\
      List.length future = 12%nat /\
      three_years_series <> None /\ "Success"%string = "Success"%string)).
Proof.
  assert (Hget : get_forecast (arith := binary64 pow_exact_cases) mean_regressor
                              three_years "JFK" "London"
                 = Return (three_years_calls, (three_years_series, "Success"%string)))
    by (vm_compute; reflexivity).
  exact (conj Hget
           (regressor_is_fitted_on_12_points_or_not_called
              (arith := binary64 pow_exact_cases) mean_regressor
              three_years "JFK" "London" _ _ _ Hget)).
Defined.

(** [forecast_ignores_other_routes] at [three_years] with a record of BOS
    added. *)
Lemma forecast_ignores_other_routes_witness :
  (forall r, In r bos_london ->
     Flight.ORIGIN r <> "JFK"%string \/
     (Flight.DEST_CITY_NAME r <> "London"%string /\
      Flight.DEST r <> "London"%string)) /\
  get_forecast (arith := binary64 pow_exact_cases) mean_regressor
               {| city_names := city_names three_years;
                  records := records three_years ++ bos_london |} "JFK" "London"
  = get_forecast (arith := binary64 pow_exact_cases) mean_regressor
                 three_years "JFK" "London".
Proof.
  assert (H : forall r, In r bos_london ->
            Flight.ORIGIN r <> "JFK"%string \/
            (Flight.DEST_CITY_NAME r <> "London"%string /\
             Flight.DEST r <> "London"%string)).
  { intros r [<-|[]]. left. discriminate. }
  exact (conj H (forecast_ignores_other_routes
                   (arith := binary64 pow_exact_cases) mean_regressor
                   three_years bos_london "JFK" "London" H)).
Defined.

(** [forecast_matches_city_then_code] at [three_years], JFK to London. *)
Lemma forecast_matches_city_then_code_witness :
  city_names three_years = true /\
  let by_city := filter (fun r => (Flight.ORIGIN r =? "JFK")%string
                                  && (Flight.DEST_CITY_NAME r =? "London")%string)
                        (records three_years) in
  let by_code := filter (fun r => (Flight.ORIGIN r =? "JFK")%string
                                  && (Flight.DEST r =? "London")%string)
                        (records three_years) in
  select_route three_years "JFK" "London"
    = (if is_empty by_city then by_code else by_city) /\
  (get_forecast (arith := binary64 pow_exact_cases) mean_regressor
                three_years "JFK" "London"
     = Return ([], (None, "No Data"%string))
   <-> by_city = [] /\ by_code = []) /\
  (exists calls series status,
     get_forecast (arith := binary64 pow_exact_cases) mean_regressor
                  three_years "JFK" "London"
     = Return (calls, (series, status))).
Proof.
  assert (Hc : city_names three_years = true) by reflexivity.
  exact (conj Hc (forecast_matches_city_then_code
                    (arith := binary64 pow_exact_cases) mean_regressor
                    three_years "JFK" "London" Hc)).
Defined.

(* ================================================================== *)
(** * The page: hubs and destinations *)

Definition str_lt (a b : string) : Prop := String.compare a b = Lt.

Lemma unique_step (xs seen : list string) :
  NoDup seen ->
  NoDup (fold_left (fun seen x => if existsb (String.eqb x) seen
                                  then seen else seen ++ [x]) xs seen) /\
  forall x,
    In x (fold_left (fun seen x => if existsb (String.eqb x) seen
                                   then seen else seen ++ [x]) xs seen)
    <-> In x seen \/ In x xs.
Proof.
  revert seen. induction xs as [|a xs IH]; intros seen Hnd; simpl.
  - split; trivial. intros x. tauto.
  - destruct (existsb (String.eqb a) seen) eqn:E.
    + destruct (IH seen Hnd) as [H1 H2]. split; trivial.
      intros x. rewrite H2. apply existsb_exists in E.
      destruct E as (y & Hy & Ey). apply String.eqb_eq in Ey. subst y.
      split; [tauto|]. intros [H|[<-|H]]; auto.
    + assert (Hnot : ~ In a seen).
      { intros Hin. rewrite (proj2 (existsb_exists (String.eqb a) seen)) in E;
          [discriminate E|].
        exists a. split; trivial. apply String.eqb_refl. }
      assert (Hnd' : NoDup (seen ++ [a])).
      { apply NoDup_app; trivial; [repeat constructor; easy|].
        intros x Hx [<-|[]]. contradiction. }
      destruct (IH _ Hnd') as [H1 H2]. split; trivial.
      intros x. rewrite H2, in_app_iff. simpl. tauto.
Qed.

Lemma unique_NoDup (xs : list string) : NoDup (unique xs).
Proof. apply (unique_step xs []). constructor. Qed.

Lemma unique_In (xs : list string) (x : string) : In x (unique xs) <-> In x xs.
Proof.
  unfold unique. rewrite (proj2 (unique_step xs [] (NoDup_nil _))). simpl. tauto.
Qed.

Lemma insort_In (a : string) (l : list string) (x : string) :
  In x (insort a l) <-> x = a \/ In x l.
Proof.
  induction l as [|y l IH]; simpl.
  - split; [intros [<-|[]]; auto|intros [->|[]]; auto].
  - destruct (String.compare a y); simpl; rewrite ?IH; intuition congruence.
Qed.

Lemma insort_length (a : string) (l : list string) :
  List.length (insort a l) = S (List.length l).
Proof.
  induction l as [|y l IH]; simpl; trivial.
  destruct (String.compare a y); simpl; now rewrite ?IH.
Qed.

Lemma insort_strict (a : string) (l : list string) :
  ~ In a l -> StronglySorted str_lt l -> StronglySorted str_lt (insort a l).
Proof.
  intros Hnot Hs. induction Hs as [|y l Hs IH Hall]; simpl.
  - repeat constructor.
  - destruct (String.compare a y) eqn:E.
    + apply (cmp_eq (cmp := String.compare)) in E. subst y.
      destruct Hnot. now left.
    + constructor; [now constructor|]. constructor; [exact E|].
      rewrite Forall_forall in *. intros z Hz.
      exact (cmp_trans (cmp := String.compare) _ _ _ E (Hall z Hz)).
    + constructor.
      * apply IH. intros Hin. apply Hnot. now right.
      * rewrite Forall_forall in *. intros z Hz. apply insort_In in Hz.
        destruct Hz as [->|Hz]; [|now apply Hall].
        unfold str_lt. rewrite (cmp_antisym (cmp := String.compare)), E.
        reflexivity.
Qed.

Lemma sorted_snoc (l : list string) (a : string) :
  sorted (l ++ [a]) = insort a (sorted l).
Proof. unfold sorted. now rewrite fold_left_app. Qed.

Lemma sorted_In (l : list string) (x : string) : In x (sorted l) <-> In x l.
Proof.
  induction l as [|a l IH] using rev_ind; [reflexivity|].
  rewrite sorted_snoc, insort_In, in_app_iff, IH. simpl. intuition congruence.
Qed.

Lemma sorted_length (l : list string) : List.length (sorted l) = List.length l.
Proof.
  induction l as [|a l IH] using rev_ind; [reflexivity|].
  rewrite sorted_snoc, insort_length, length_app, IH. simpl. lia.
Qed.

Lemma sorted_strict (l : list string) :
  NoDup l -> StronglySorted str_lt (sorted l).
Proof.
  induction l as [|a l IH] using rev_ind; intros Hnd; [constructor|].
  rewrite sorted_snoc. apply NoDup_app_remove_r in Hnd as Hl.
  apply insort_strict; [|now apply IH].
  rewrite sorted_In. intros Hin.
  apply NoDup_remove_2 in Hnd. rewrite app_nil_r in Hnd. contradiction.
Qed.

Lemma sorted_unique_strict (xs : list string) :
  StronglySorted str_lt (sorted (unique xs)).
Proof. apply sorted_strict, unique_NoDup. Qed.

Lemma sorted_unique_In (xs : list string) (x : string) :
  In x (sorted (unique xs)) <-> In x xs.
Proof. now rewrite sorted_In, unique_In. Qed.

Lemma str_lt_NoDup (l : list string) : StronglySorted str_lt l -> NoDup l.
Proof.
  induction 1 as [|a l Hs IH Hall]; constructor; trivial.
  intros Hin. rewrite Forall_forall in Hall. specialize (Hall a Hin).
  unfold str_lt in Hall. rewrite (cmp_refl String.compare) in Hall.
  discriminate.
Qed.

Lemma index_spec (x : string) (l : list string) :
  In x l ->
  (index x l < List.length l)%nat /\ nth (index x l) l EmptyString = x.
Proof.
  induction l as [|y l IH]; simpl; [easy|]. intros Hin.
  destruct (String.eqb_spec y x) as [->|Hne].
  - split; [lia|reflexivity].
  - destruct Hin as [E|Hin]; [contradiction|].
    destruct (IH Hin). split; [lia|trivial].
Qed.

Section PageFacts.
Context {F : Type}.

Lemma hubs_spec (df : DataFrame F) :
  StronglySorted str_lt (hubs df) /\
  forall h, In h (hubs df) <->
            exists r, In r (records df) /\ Flight.ORIGIN r = h.
Proof.
  split; [apply sorted_unique_strict|].
  intros h. unfold hubs. rewrite sorted_unique_In, in_map_iff.
  split; intros (r & H1 & H2); eauto.
Qed.

(** X18.  The hub selector lists the origins of the table, each once, in ascending
    order. *)
Theorem hubs_are_the_origins_in_order (df : DataFrame F) :
  StronglySorted str_lt (hubs df) /\
  forall h, In h (hubs df) <->
            exists r, In r (records df) /\ Flight.ORIGIN r = h.
Proof.
  split.
  - unfold hubs. apply sorted_strict, unique_NoDup.
  - intros h. unfold hubs. rewrite sorted_In, unique_In, in_map_iff.
    split; intros (r & H1 & H2); exists r; split; assumption.
Qed.

(** X19.  On a table that is not empty the default index of the selector is within
    the list; the hub there is JFK when JFK is an origin of the table, and
    the least origin otherwise. *)
Theorem default_hub_is_JFK_or_the_least_origin (df : DataFrame F) :
  records df <> [] ->
  let hub := nth (default_ix (hubs df)) (hubs df) EmptyString in
  (default_ix (hubs df) < List.length (hubs df))%nat /\
  (exists r, In r (records df) /\ Flight.ORIGIN r = hub) /\
  ((exists r, In r (records df) /\ Flight.ORIGIN r = "JFK"%string) ->
   hub = "JFK"%string) /\
  ((forall r, In r (records df) -> Flight.ORIGIN r <> "JFK"%string) ->
   forall r, In r (records df) -> String.compare hub (Flight.ORIGIN r) <> Gt).
Proof.
  intros Hne hub.
  destruct (hubs_spec df) as [Hs Hin].
  assert (Hdef : (default_ix (hubs df) < List.length (hubs df))%nat /\
                 ((exists r, In r (records df) /\ Flight.ORIGIN r = "JFK"%string) ->
                  hub = "JFK"%string) /\
                 ((forall r, In r (records df) -> Flight.ORIGIN r <> "JFK"%string) ->
                  default_ix (hubs df) = 0%nat)).
  { unfold hub, default_ix.
    destruct (existsb (String.eqb "JFK") (hubs df)) eqn:E.
    - apply existsb_exists in E. destruct E as (x & Hx & Ex).
      apply String.eqb_eq in Ex. subst x.
      destruct (index_spec "JFK" (hubs df) Hx) as [Hlt Hnth].
      split; [exact Hlt|]. split; [now intros _|].
      intros Hno. apply Hin in Hx. destruct Hx as (r & Hr & Er).
      now destruct (Hno r Hr).
    - assert (Hlen : (0 < List.length (hubs df))%nat).
      { destruct (records df) as [|r l] eqn:Er; [now destruct Hne|].
        assert (Hh : In (Flight.ORIGIN r) (hubs df)).
        { apply Hin. exists r. split; [now left|reflexivity]. }
        destruct (hubs df); [destruct Hh|simpl; lia]. }
      split; [exact Hlen|]. split; [|reflexivity].
      intros (r & Hr & Er).
      assert (Hj : In "JFK"%string (hubs df)) by (apply Hin; eauto).
      rewrite (proj2 (existsb_exists (String.eqb "JFK") (hubs df))) in E;
        [discriminate E|].
      exists "JFK"%string. split; trivial. }
  destruct Hdef as (Hlt & Hjfk & Hzero).
  split; [exact Hlt|]. split; [|split; [exact Hjfk|]].
  - apply Hin. unfold hub. now apply nth_In.
  - intros Hno r Hr. unfold hub. rewrite (Hzero Hno).
    assert (Hh : In (Flight.ORIGIN r) (hubs df)) by (apply Hin; eauto).
    destruct (hubs df) as [|h0 l]; [destruct Hh|]. simpl.
    destruct Hh as [<-|Hh].
    + rewrite (cmp_refl String.compare). discriminate.
    + inversion_clear Hs as [|? ? _ Hall]. rewrite Forall_forall in Hall.
      rewrite (Hall _ Hh). discriminate.
Qed.
End PageFacts.

Section HubAudit.
Context {F : Type} {arith : Arith F}.

(** X20.  On a table that is not empty the selector holds a hub whose audit is not
    [None]: an origin of a record of the latest year. *)
Theorem some_hub_has_an_audit (df : DataFrame F) :
  records df <> [] ->
  exists hub, In hub (hubs df) /\ run_audit df hub <> None.
Proof.
  intros Hne.
  pose proof (series_max_spec (map (@Flight.YEAR F) (records df))) as Hmax.
  destruct (series_max (map (@Flight.YEAR F) (records df))) as [m|] eqn:Em.
  - destruct Hmax as [Hin _]. apply in_map_iff in Hin.
    destruct Hin as (r & Hy & Hr).
    exists (Flight.ORIGIN r). split.
    + apply hubs_spec. eauto.
    + rewrite run_audit_None. intros E.
      assert (Hd : In r (hub_data df (Flight.ORIGIN r))).
      { apply hub_data_In. rewrite Em, Hy. auto. }
      rewrite E in Hd. destruct Hd.
  - apply map_eq_nil in Hmax. contradiction.
Qed.
End HubAudit.

(* ================================================================== *)
(** * The loader *)

Lemma filter_filter {A : Type} (p q : A -> bool) (l : list A) :
  filter p (filter q l) = filter (fun x => q x && p x) l.
Proof.
  induction l as [|x l IH]; simpl; trivial.
  destruct (q x); simpl; [destruct (p x)|]; now rewrite IH.
Qed.

Section LoaderFacts.
Context {F : Type} {arith : Arith F}.

(** The two filters of lines 38-41 on one record. *)
Definition kept (c : Raw.columns) (r : Raw.row F) : bool :=
  (Raw.SEATS r >? of_Z 0)%A &&
  (if Raw.has_DEPARTURES_PERFORMED c
   then (Raw.DEPARTURES_PERFORMED r >? of_Z 0)%A else true).

Lemma load_data_Some (raw : Raw.frame F) (df : DataFrame F) :
  load_data raw = Some df ->
  Raw.has_SEATS (Raw.cols raw) = true /\
  city_names df = Raw.has_DEST_CITY_NAME (Raw.cols raw) /\
  records df = map (label (Raw.cols raw))
                   (filter (kept (Raw.cols raw)) (Raw.rows raw)).
Proof.
  unfold load_data, kept.
  destruct (Raw.has_SEATS (Raw.cols raw)); simpl; [|discriminate].
  intros [= <-]. simpl. split; [reflexivity|]. split; [reflexivity|].
  destruct (Raw.has_DEPARTURES_PERFORMED (Raw.cols raw)).
  - now rewrite filter_filter.
  - f_equal. apply filter_ext. intros r. now rewrite andb_true_r.
Qed.

(** X15.  A loaded table holds, in their order, the records that have seats and,
    where the column exists, departures: every record of it passes the two
    tests and every record of the raw table that passes them is in it. *)
Theorem loaded_records_have_seats_and_departures
    (raw : Raw.frame F) (df : DataFrame F) :
  load_data raw = Some df ->
  (forall r, In r (records df) ->
     (Flight.SEATS r >? of_Z 0)%A = true /\
     (Raw.has_DEPARTURES_PERFORMED (Raw.cols raw) = true ->
      (Flight.DEPARTURES_PERFORMED r >? of_Z 0)%A = true)) /\
  (forall r, In r (Raw.rows raw) ->
     (Raw.SEATS r >? of_Z 0)%A = true ->
     (Raw.has_DEPARTURES_PERFORMED (Raw.cols raw) = true ->
      (Raw.DEPARTURES_PERFORMED r >? of_Z 0)%A = true) ->
     In (label (Raw.cols raw) r) (records df)).
Proof.
  intros Hload. destruct (load_data_Some raw df Hload) as (_ & _ & ->).
  split.
  - intros r Hr. apply in_map_iff in Hr. destruct Hr as (r0 & <- & Hr0).
    apply filter_In in Hr0. destruct Hr0 as [_ Hk]. unfold kept in Hk.
    apply andb_true_iff in Hk. destruct Hk as [Hs Hd]. simpl.
    split; [exact Hs|]. intros Hc. now rewrite Hc in Hd.
  - intros r Hr Hs Hd. apply in_map. apply filter_In. split; trivial.
    unfold kept. rewrite Hs. simpl.
    destruct (Raw.has_DEPARTURES_PERFORMED (Raw.cols raw)); auto.
Qed.

(** A loaded table has the destination labels of line 48. *)
Lemma loaded_is_labelled (raw : Raw.frame F) (df : DataFrame F) :
  load_data raw = Some df -> map_Dest_Label df = df.
Proof.
  intros Hload. destruct (load_data_Some raw df Hload) as (_ & Hc & Hr).
  destruct df as [c rs]. simpl in Hc, Hr. subst c rs.
  unfold map_Dest_Label. simpl. f_equal. rewrite map_map.
  apply map_ext. intros r. unfold label. simpl.
  now destruct (Raw.has_DEST_CITY_NAME (Raw.cols raw)).
Qed.

Lemma target_cities_In (audit : list (Route F)) (target : string) :
  In target (target_cities audit) <->
  exists row, In row audit /\ Dest_Label row = target.
Proof.
  unfold target_cities. rewrite sorted_unique_In, in_map_iff.
  split; intros (r & H1 & H2); eauto.
Qed.

(** X17.  From the loader to the forecast.  On a loaded table, for every
    destination the page offers for the hub's audit: when the CSVs had the
    city-name column the forecast engine returns and its status is not
    "No Data"; when they had not, it raises [KeyError]. *)
Theorem forecast_of_an_offered_destination
    (rf : Regressor F) (raw : Raw.frame F) (df : DataFrame F)
    (hub : string) (audit : list (Route F)) (target : string) :
  load_data raw = Some df ->
  run_audit df hub = Some audit ->
  In target (target_cities audit) ->
  if Raw.has_DEST_CITY_NAME (Raw.cols raw)
  then exists calls series status,
         get_forecast rf df hub target = Return (calls, (series, status)) /\
         status <> "No Data"%string
  else get_forecast rf df hub target = Raise (KeyError "DEST_CITY_NAME").
Proof.
  intros Hload Hrun Htarget.
  destruct (load_data_Some raw df Hload) as (_ & Hc & _).
  apply target_cities_In in Htarget. destruct Htarget as (row & Hrow & <-).
  destruct (Raw.has_DEST_CITY_NAME (Raw.cols raw)).
  - rewrite <- (loaded_is_labelled raw df Hload) in Hrun |- *.
    exact (forecast_of_audit_destination_is_matched rf df hub audit row
             Hc Hrun Hrow).
  - unfold get_forecast. now rewrite Hc.
Qed.
End LoaderFacts.

(* ================================================================== *)
(** * The monopoly count *)

Lemma contains_Monopoly (s : status) :
  str_contains "Monopoly" (status_str s) = true <-> s = Monopoly.
Proof.
  destruct s; vm_compute; split; congruence.
Qed.

Lemma NoDup_map_injective {A B : Type} (f : A -> B) (l : list A) (a b : A) :
  NoDup (map f l) -> In a l -> In b l -> f a = f b -> a = b.
Proof.
  induction l as [|x l IH]; simpl; [easy|].
  intros Hnd Ha Hb E. inversion_clear Hnd as [|? ? Hx Hl].
  destruct Ha as [->|Ha], Hb as [->|Hb]; trivial.
  - destruct Hx. rewrite E. now apply in_map.
  - destruct Hx. rewrite <- E. now apply in_map.
  - now apply IH.
Qed.

Lemma NoDup_map_on {A B : Type} (f : A -> B) (l : list A) :
  NoDup l -> (forall a b, In a l -> In b l -> f a = f b -> a = b) ->
  NoDup (map f l).
Proof.
  induction 1 as [|x l Hx Hl IH]; simpl; intros Hinj; constructor.
  - intros Hin. apply in_map_iff in Hin. destruct Hin as (y & E & Hy).
    assert (y = x) by (apply Hinj; auto). subst y. contradiction.
  - apply IH. intros a b Ha Hb. apply Hinj; now right.
Qed.

Lemma audit_keys_NoDup {F : Type} {arith : Arith F}
    (df : DataFrame F) (hub_code : string) (stats : list (Route F)) :
  run_audit df hub_code = Some stats -> NoDup (map route_key stats).
Proof.
  intros Hrun. rewrite (audit_keys df hub_code stats Hrun).
  apply groupby_keys_NoDup. typeclasses eauto.
Qed.

Section MonopolyCount.
Local Open Scope Qc_scope.
Variable pow : Qc -> Qc -> Qc.

(** X5.  In exact arithmetic, when no record of the hub has a negative passenger
    count, a destination has at most one row with the status Monopoly: two
    rows of an audit with the same destination and that status are the same
    row. *)
Theorem at_most_one_monopoly_per_destination
    (df : DataFrame Qc) (hub_code : string)
    (stats : list (Route Qc)) (r1 r2 : Route Qc) :
  run_audit (arith := exact pow) df hub_code = Some stats ->
  (forall r, In r (hub_data df hub_code) -> 0 <= Flight.PASSENGERS r) ->
  In r1 stats -> In r2 stats ->
  Dest_Label r1 = Dest_Label r2 ->
  Status r1 = Monopoly ->
  Status r2 = Monopoly ->
  r1 = r2.
Proof.
  intros Hrun Hpos H1 H2 Hd Hm1 Hm2.
  pose proof (audit_keys_NoDup (arith := exact pow) df hub_code stats Hrun) as Hkeys.
  destruct (key_cmp (route_key r1) (route_key r2)) eqn:C.
  - apply (cmp_eq (cmp := key_cmp)) in C.
    exact (NoDup_map_injective _ _ _ _ Hkeys H1 H2 C).
  - exfalso.
    apply (monopoly_has_no_rival pow df hub_code stats r1 r2); trivial.
    intros ->. rewrite (cmp_refl key_cmp) in C. discriminate.
  - exfalso.
    apply (monopoly_has_no_rival pow df hub_code stats r1 r2); trivial.
    intros ->. rewrite (cmp_refl key_cmp) in C. discriminate.
Qed.

(** X21.  In exact arithmetic, when no record of the hub has a negative passenger
    count, the number of monopoly routes the page shows is at most the
    number of destinations of the audit. *)
Theorem monopoly_count_is_at_most_the_destinations
    (df : DataFrame Qc) (hub_code : string) (stats : list (Route Qc)) :
  run_audit (arith := exact pow) df hub_code = Some stats ->
  (forall r, In r (hub_data df hub_code) -> 0 <= Flight.PASSENGERS r) ->
  (monopolies stats <= List.length (target_cities stats))%nat.
Proof.
  intros Hrun Hpos. unfold monopolies.
  set (M := filter (fun row : Route Qc =>
                      str_contains "Monopoly" (status_str (Status row))) stats).
  assert (HM : forall r, In r M -> In r stats /\ Status r = Monopoly).
  { intros r Hr. apply filter_In in Hr. destruct Hr as [Hr Hc].
    split; [exact Hr|now apply contains_Monopoly]. }
  pose proof (audit_keys_NoDup (arith := exact pow) df hub_code stats Hrun) as Hkeys.
  rewrite <- (length_map (fun row : Route Qc => Dest_Label row) M).
  apply NoDup_incl_length.
  - apply NoDup_map_on.
    + apply NoDup_filter. exact (NoDup_map_inv _ _ Hkeys).
    + intros a b Ha Hb E.
      destruct (HM a Ha) as [Hina Hsa], (HM b Hb) as [Hinb Hsb].
      destruct (key_cmp (route_key a) (route_key b)) eqn:C.
      * apply (cmp_eq (cmp := key_cmp)) in C.
        exact (NoDup_map_injective _ _ _ _ Hkeys Hina Hinb C).
      * exfalso.
        apply (monopoly_has_no_rival pow df hub_code stats a b); trivial.
        intros ->. rewrite (cmp_refl key_cmp) in C. discriminate.
      * exfalso.
        apply (monopoly_has_no_rival pow df hub_code stats a b); trivial.
        intros ->. rewrite (cmp_refl key_cmp) in C. discriminate.
  - intros d Hd. apply in_map_iff in Hd. destruct Hd as (r & <- & Hr).
    apply target_cities_In. exists r. split; [now apply HM|reflexivity].
Qed.
End MonopolyCount.

(* ================================================================== *)
(** * What the forecast does not read *)

Lemma Forall2_filter {A B : Type} (R : A -> B -> Prop)
    (p : A -> bool) (q : B -> bool) (l : list A) (l' : list B) :
  (forall x y, R x y -> p x = q y) ->
  Forall2 R l l' -> Forall2 R (filter p l) (filter q l').
Proof.
  intros Hpq. induction 1 as [|x y l l' Hxy Hl IH]; simpl; [constructor|].
  rewrite <- (Hpq x y Hxy). destruct (p x); [now constructor|exact IH].
Qed.

Lemma Forall2_filter_eq {A : Type} (R : A -> A -> Prop)
    (p : A -> bool) (l l' : list A) :
  (forall x y, R x y -> p x = p y) ->
  (forall x y, R x y -> p x = true -> x = y) ->
  Forall2 R l l' -> filter p l = filter p l'.
Proof.
  intros Hp Heq. induction 1 as [|x y l l' Hxy Hl IH]; simpl; trivial.
  rewrite <- (Hp x y Hxy). destruct (p x) eqn:E; trivial.
  now rewrite (Heq x y Hxy E), IH.
Qed.

Lemma Forall2_map_In {A B C D : Type} (R : A -> B -> Prop) (S : C -> D -> Prop)
    (f : A -> C) (g : B -> D) (l : list A) (l' : list B) :
  (forall x y, In x l -> R x y -> S (f x) (g y)) ->
  Forall2 R l l' -> Forall2 S (map f l) (map g l').
Proof.
  intros HS H. induction H as [|x y l l' Hxy Hl IH]; simpl; constructor.
  - apply HS; [now left|exact Hxy].
  - apply IH. intros a b Ha. apply HS. now right.
Qed.

Lemma Forall2_map_eq {A B C : Type} (R : A -> B -> Prop)
    (f : A -> C) (g : B -> C) (l : list A) (l' : list B) :
  (forall x y, In x l -> R x y -> f x = g y) ->
  Forall2 R l l' -> map f l = map g l'.
Proof.
  intros HS H. induction H as [|x y l l' Hxy Hl IH]; simpl; trivial.
  f_equal.
  - apply HS; [now left|exact Hxy].
  - apply IH. intros a b Ha. apply HS. now right.
Qed.

Lemma Forall2_is_empty {A B : Type} (R : A -> B -> Prop) (l : list A) (l' : list B) :
  Forall2 R l l' -> is_empty l = is_empty l'.
Proof. now destruct 1. Qed.

Section GroupByRelated.
Context {K A B : Type} (cmp : K -> K -> comparison)
        (key : A -> K) (key' : B -> K) (R : A -> B -> Prop).
Hypothesis R_key : forall x y, R x y -> key x = key' y.

(** Groups of the same key whose rows are related one to one. *)
Definition groups_related (g : K * list A) (g' : K * list B) : Prop :=
  fst g = fst g' /\ Forall2 R (snd g) (snd g').

Lemma add_to_group_related x y gs gs' :
  R x y -> Forall2 groups_related gs gs' ->
  Forall2 groups_related (add_to_group cmp key x gs) (add_to_group cmp key' y gs').
Proof.
  intros Hxy H. induction H as [|[k g] [k' g'] gs gs' [Hk Hg] Hgs IH]; simpl.
  - repeat constructor; simpl; auto.
  - simpl in Hk, Hg. subst k'. rewrite <- (R_key x y Hxy).
    destruct (cmp (key x) k).
    + constructor; trivial. split; trivial. simpl.
      apply Forall2_app; trivial. now repeat constructor.
    + constructor; [split; simpl; auto|]. constructor; trivial. now split.
    + constructor; trivial. now split.
Qed.

Lemma groupby_related rows rows' :
  Forall2 R rows rows' ->
  Forall2 groups_related (groupby cmp key rows) (groupby cmp key' rows').
Proof.
  unfold groupby.
  assert (H : forall gs gs', Forall2 groups_related gs gs' ->
            Forall2 R rows rows' ->
            Forall2 groups_related
              (fold_left (fun gs r => add_to_group cmp key r gs) rows gs)
              (fold_left (fun gs r => add_to_group cmp key' r gs) rows' gs')).
  { intros gs gs' Hgs Hrows. revert gs gs' Hgs.
    induction Hrows as [|x y l l' Hxy Hl IH]; intros gs gs' Hgs; simpl; trivial.
    apply IH. now apply add_to_group_related. }
  intros Hrows. apply H; [constructor|exact Hrows].
Qed.
End GroupByRelated.

Section ForecastReads.
Context {F : Type} {arith : Arith F} (rf : Regressor F).

(** Two records that agree on what the forecast engine reads: the period,
    the origin, the destination by code and by city, and, outside 2020 and
    2021, the passengers. *)
Definition same_for_forecast (r r' : Flight.row F) : Prop :=
  Flight.YEAR r = Flight.YEAR r' /\
  Flight.MONTH r = Flight.MONTH r' /\
  Flight.ORIGIN r = Flight.ORIGIN r' /\
  Flight.DEST r = Flight.DEST r' /\
  Flight.DEST_CITY_NAME r = Flight.DEST_CITY_NAME r' /\
  (isin (Flight.YEAR r) [2020; 2021] = false ->
   Flight.PASSENGERS r = Flight.PASSENGERS r').

(** The points of a series other than the Historical ones of 2020 and
    2021. *)
Definition outside_2020_2021 (p : Series.row F) : bool :=
  negb (is_historical p && isin (Series.YEAR p) [2020; 2021]).

(** A result of the engine without the Historical points of 2020 and 2021. *)
Definition without_2020_2021
    (res : result (list (sk_call F) * (option (list (Series.row F)) * string)))
  : result (list (sk_call F) * (option (list (Series.row F)) * string)) :=
  match res with
  | Return (calls, (series, status)) =>
      Return (calls, (option_map (filter outside_2020_2021) series, status))
  | Raise e => Raise e
  end.

Lemma select_route_same (df df' : DataFrame F) (origin dest : string) :
  Forall2 same_for_forecast (records df) (records df') ->
  Forall2 same_for_forecast (select_route df origin dest)
                            (select_route df' origin dest).
Proof.
  intros Hrec. unfold select_route.
  assert (Hcity : Forall2 same_for_forecast
            (filter (fun r => (Flight.ORIGIN r =? origin)%string
                              && (Flight.DEST_CITY_NAME r =? dest)%string)
                    (records df))
            (filter (fun r => (Flight.ORIGIN r =? origin)%string
                              && (Flight.DEST_CITY_NAME r =? dest)%string)
                    (records df'))).
  { apply Forall2_filter; trivial.
    intros x y (_ & _ & Ho & _ & Hc & _). now rewrite Ho, Hc. }
  rewrite <- (Forall2_is_empty _ _ _ Hcity).
  destruct (is_empty _); trivial.
  apply Forall2_filter; trivial.
  intros x y (_ & _ & Ho & Hd & _ & _). now rewrite Ho, Hd.
Qed.

(** Monthly points of the same period, with the same passengers outside
    2020 and 2021. *)
Definition same_month (q q' : Monthly.row F) : Prop :=
  Monthly.YEAR q = Monthly.YEAR q' /\
  Monthly.MONTH q = Monthly.MONTH q' /\
  (isin (Monthly.YEAR q) [2020; 2021] = false ->
   Monthly.PASSENGERS q = Monthly.PASSENGERS q').

Lemma monthly_series_same (route route' : list (Flight.row F)) :
  Forall2 same_for_forecast route route' ->
  Forall2 same_month (monthly_series route) (monthly_series route').
Proof.
  intros Hroute. unfold monthly_series.
  apply (Forall2_map_In
           (groups_related (K := Z * Z) same_for_forecast)).
  - intros [k g] [k' g'] Hin [Hk Hg]. simpl in Hk, Hg. subst k'.
    unfold same_month. simpl. split; [reflexivity|]. split; [reflexivity|].
    intros Hyear. f_equal.
    apply (Forall2_map_eq same_for_forecast); trivial.
    intros x y Hx (_ & _ & _ & _ & _ & Hp). apply Hp.
    destruct (proj1 (groupby_In period_cmp _ _ _ _) Hin) as [Hgeq _].
    rewrite Hgeq in Hx. apply filter_In in Hx. destruct Hx as [_ Hx].
    apply has_key_true in Hx; [|typeclasses eauto].
    rewrite <- Hx in Hyear. exact Hyear.
  - apply groupby_related; trivial.
    intros x y (Hy & Hm & _). now rewrite Hy, Hm.
Qed.

Lemma training_subset_same (monthly monthly' : list (Monthly.row F)) :
  Forall2 same_month monthly monthly' ->
  training_subset monthly = training_subset monthly'.
Proof.
  unfold training_subset. apply Forall2_filter_eq.
  - intros x y (Hy & _). now rewrite Hy.
  - intros [y m p] [y' m' p'] (Hy & Hm & Hp) Hin. simpl in *.
    apply negb_true_iff in Hin. rewrite (Hp Hin). now subst.
Qed.

Lemma outside_historical (monthly : list (Monthly.row F)) :
  filter outside_2020_2021 (map historical monthly)
  = map historical (training_subset monthly).
Proof.
  unfold training_subset. rewrite filter_map_comm. reflexivity.
Qed.

(** X11.  The passengers of 2020 and 2021 reach nothing but the Historical points
    of those years.  Two tables whose records agree, one by one, on the
    period, the origin and the destination, and outside 2020 and 2021 on
    the passengers, give the same calls to the regressor, the same status,
    the same Forecast points and the same Historical points of the other
    years; no other column is read. *)
Theorem forecast_is_blind_to_2020_2021
    (df df' : DataFrame F) (origin dest : string) :
  city_names df = city_names df' ->
  Forall2 same_for_forecast (records df) (records df') ->
  without_2020_2021 (get_forecast rf df' origin dest)
  = without_2020_2021 (get_forecast rf df origin dest).
Proof.
  intros Hc Hrec.
  pose proof (select_route_same df df' origin dest Hrec) as Hroute.
  pose proof (monthly_series_same _ _ Hroute) as Hmonthly.
  pose proof (training_subset_same _ _ Hmonthly) as Hclean.
  assert (Hyears : map (@Monthly.YEAR F) (monthly_series (select_route df origin dest))
                   = map (@Monthly.YEAR F)
                         (monthly_series (select_route df' origin dest))).
  { apply (Forall2_map_eq same_month); trivial. now intros x y _ (Hy & _). }
  unfold get_forecast. rewrite <- Hc.
  destruct (negb (city_names df)); [reflexivity|].
  rewrite <- (Forall2_is_empty _ _ _ Hroute).
  destruct (is_empty (select_route df origin dest)); [reflexivity|].
  rewrite <- Hclean, <- Hyears.
  destruct (List.length _ <? 12)%nat; [reflexivity|].
  destruct (series_max _) as [last_year|]; [|reflexivity].
  unfold without_2020_2021, option_map.
  rewrite !filter_app, !outside_historical, Hclean. reflexivity.
Qed.
End ForecastReads.

(* ================================================================== *)
(** * What the audit does not read *)

Lemma series_max_unique (xs : list Z) (m : Z) :
  In m xs -> (forall y, In y xs -> y <= m) -> series_max xs = Some m.
Proof.
  intros Hin Hall. pose proof (series_max_spec xs) as Hspec.
  destruct (series_max xs) as [m'|].
  - destruct Hspec as [Hin' Hall']. f_equal.
    pose proof (Hall _ Hin'). pose proof (Hall' _ Hin). lia.
  - subst xs. destruct Hin.
Qed.

Section AuditReads.
Context {F : Type} {arith : Arith F}.

(** X13.  The audit reads the records of the hub in the latest year and no other:
    records added to a table, each of an earlier year than the latest or of
    another origin in the latest year, leave the audit of the hub as it
    is. *)
Theorem audit_reads_only_the_hub_in_the_latest_year
    (df : DataFrame F) (others : list (Flight.row F))
    (hub_code : string) (latest : Z) :
  series_max (map (@Flight.YEAR F) (records df)) = Some latest ->
  (forall r, In r others ->
     Flight.YEAR r < latest \/
     (Flight.YEAR r = latest /\ Flight.ORIGIN r <> hub_code)) ->
  run_audit {| city_names := city_names df;
               records := records df ++ others |} hub_code
  = run_audit df hub_code.
Proof.
  intros Hmax Hothers.
  pose proof (series_max_spec (map (@Flight.YEAR F) (records df))) as Hspec.
  rewrite Hmax in Hspec. destruct Hspec as [Hin Hall].
  assert (Hmax' : series_max (map (@Flight.YEAR F) (records df ++ others))
                  = Some latest).
  { apply series_max_unique.
    - rewrite map_app. apply in_or_app. now left.
    - intros y Hy. rewrite map_app in Hy. apply in_app_or in Hy.
      destruct Hy as [Hy|Hy]; [now apply Hall|].
      apply in_map_iff in Hy. destruct Hy as (r & <- & Hr).
      destruct (Hothers r Hr) as [Hlt|[-> _]]; lia. }
  assert (Hdata : hub_data {| city_names := city_names df;
                              records := records df ++ others |} hub_code
                  = hub_data df hub_code).
  { unfold hub_data. simpl records. rewrite Hmax', Hmax, filter_app.
    rewrite (filter_nil_iff _ others); [apply app_nil_r|].
    intros r Hr. apply andb_false_iff.
    destruct (Hothers r Hr) as [Hlt|[_ Hne]].
    - left. apply Z.eqb_neq. lia.
    - right. now apply String.eqb_neq. }
  unfold run_audit. now rewrite Hdata.
Qed.
End AuditReads.

(* ================================================================== *)
(** * The order of the records *)

Lemma Permutation_filter_same {A : Type} (p : A -> bool) (l l' : list A) :
  Permutation l l' -> Permutation (filter p l) (filter p l').
Proof.
  induction 1 as [|x l l' H IH|x y l|l l' l'' H1 IH1 H2 IH2]; simpl.
  - constructor.
  - destruct (p x); [now constructor|exact IH].
  - destruct (p x), (p y); try apply Permutation_refl. apply perm_swap.
  - now apply Permutation_trans with (filter p l').
Qed.

Lemma Permutation_is_empty {A : Type} (l l' : list A) :
  Permutation l l' -> is_empty l = is_empty l'.
Proof.
  intros H. destruct l as [|x l], l' as [|y l']; trivial.
  - apply Permutation_nil in H. discriminate.
  - apply Permutation_sym, Permutation_nil in H. discriminate.
Qed.

Lemma series_max_perm (xs ys : list Z) :
  Permutation xs ys -> series_max xs = series_max ys.
Proof.
  intros H. pose proof (series_max_spec xs) as Hspec.
  destruct (series_max xs) as [m|].
  - destruct Hspec as [Hin Hall]. symmetry. apply series_max_unique.
    + exact (Permutation_in _ H Hin).
    + intros y Hy. apply Hall. exact (Permutation_in _ (Permutation_sym H) Hy).
  - subst xs. apply Permutation_nil in H. now subst ys.
Qed.

Section GroupByOrder.
Context {K R : Type} (cmp : K -> K -> comparison) {HK : KeyOrder cmp}
        (key : R -> K).

Lemma sorted_keys_ext (l l' : list K) :
  StronglySorted (fun a b => cmp a b = Lt) l ->
  StronglySorted (fun a b => cmp a b = Lt) l' ->
  (forall k, In k l <-> In k l') -> l = l'.
Proof.
  intros Hl. revert l'.
  induction Hl as [|a l Hs IH Ha]; intros l' Hl' Hmem.
  - destruct l' as [|b l']; trivial. destruct (proj2 (Hmem b)). now left.
  - destruct Hl' as [|b l' Hs' Hb].
    + destruct (proj1 (Hmem a)). now left.
    + rewrite Forall_forall in Ha, Hb.
      assert (E : a = b).
      { destruct (proj1 (Hmem a) (or_introl eq_refl)) as [E|Hin]; [auto|].
        destruct (proj2 (Hmem b) (or_introl eq_refl)) as [E|Hin']; [auto|].
        pose proof (cmp_trans _ _ _ (Hb _ Hin) (Ha _ Hin')) as Hbb.
        rewrite (cmp_refl cmp) in Hbb. discriminate. }
      subst b. f_equal. apply IH; trivial.
      intros k. split; intros Hk.
      * destruct (proj1 (Hmem k) (or_intror Hk)) as [<-|Hin]; trivial.
        pose proof (Ha _ Hk) as Haa. rewrite (cmp_refl cmp) in Haa. discriminate.
      * destruct (proj2 (Hmem k) (or_intror Hk)) as [<-|Hin]; trivial.
        pose proof (Hb _ Hk) as Haa. rewrite (cmp_refl cmp) in Haa. discriminate.
Qed.

(** The keys of the groups are the keys of the rows. *)
Lemma groupby_keys_In (rows : list R) (k : K) :
  In k (map fst (groupby cmp key rows)) <-> exists r, In r rows /\ key r = k.
Proof.
  rewrite in_map_iff. split.
  - intros ([k' g] & <- & Hg). simpl.
    destruct (proj1 (groupby_In cmp key _ _ _) Hg) as [Hgeq Hne].
    destruct g as [|r g]; [now destruct Hne|].
    assert (Hr : In r (filter (has_key cmp key k') rows))
      by (rewrite <- Hgeq; now left).
    apply filter_In in Hr. destruct Hr as [Hr Hk].
    exists r. split; trivial. now apply (has_key_true cmp key).
  - intros (r & Hr & <-).
    destruct (groupby_grouped cmp key rows) as (_ & _ & Hk).
    destruct (Hk r Hr) as [g Hg]. now exists (key r, g).
Qed.

Lemma groupby_keys_sorted (rows : list R) :
  StronglySorted (fun a b => cmp a b = Lt) (map fst (groupby cmp key rows)).
Proof. apply StronglySorted_map. exact (groupby_sorted cmp key rows). Qed.

(** The groups, from their keys. *)
Lemma groupby_of_keys (rows : list R) :
  groupby cmp key rows
  = map (fun k => (k, filter (has_key cmp key k) rows))
        (map fst (groupby cmp key rows)).
Proof.
  rewrite map_map. rewrite <- (map_id (groupby cmp key rows)) at 1.
  apply map_ext_in. intros [k g] Hg. simpl.
  destruct (proj1 (groupby_In cmp key _ _ _) Hg) as [-> _]. reflexivity.
Qed.

(** What is computed from a group whatever the order of its rows is the
    same on a table and on a rearrangement of it. *)
Lemma groupby_perm_map {X : Type} (f : K * list R -> X) (rows rows' : list R) :
  (forall k g g', Permutation g g' -> f (k, g) = f (k, g')) ->
  Permutation rows rows' ->
  map f (groupby cmp key rows) = map f (groupby cmp key rows').
Proof.
  intros Hf Hperm.
  assert (Hkeys : map fst (groupby cmp key rows) = map fst (groupby cmp key rows')).
  { apply sorted_keys_ext; try apply groupby_keys_sorted.
    intros k. rewrite !groupby_keys_In.
    split; intros (r & Hr & Hk); exists r; split; trivial.
    - exact (Permutation_in _ Hperm Hr).
    - exact (Permutation_in _ (Permutation_sym Hperm) Hr). }
  rewrite (groupby_of_keys rows), (groupby_of_keys rows'), <- Hkeys, !map_map.
  apply map_ext. intros k. apply Hf. now apply Permutation_filter_same.
Qed.
End GroupByOrder.

Section ExactOrder.
Local Open Scope Qc_scope.
Variable pow : Qc -> Qc -> Qc.

Lemma qsum_perm (l l' : list Qc) : Permutation l l' -> qsum l = qsum l'.
Proof.
  induction 1 as [|x l l' H IH|x y l|l l' l'' H1 IH1 H2 IH2].
  - reflexivity.
  - now rewrite !qsum_cons, IH.
  - rewrite !qsum_cons. ring.
  - now rewrite IH1.
Qed.

Lemma fsum_exact_perm {A : Type} (f : A -> Qc) (g g' : list A) :
  Permutation g g' ->
  fsum (arith := exact pow) (map f g) = fsum (arith := exact pow) (map f g').
Proof.
  intros H. change (qsum (map f g) = qsum (map f g')).
  apply qsum_perm. now apply Permutation_map.
Qed.

Lemma aggregate_perm (k : string * string * string) (g g' : list (Flight.row Qc)) :
  Permutation g g' ->
  aggregate (arith := exact pow) (k, g) = aggregate (arith := exact pow) (k, g').
Proof.
  intros H. unfold aggregate, fmean. simpl.
  rewrite !(fsum_exact_perm _ g g' H), !length_map, (Permutation_length H).
  reflexivity.
Qed.

(** X14.  In exact arithmetic the audit does not depend on the order of the
    records of the table, hence not on the order in which the files were
    read. *)
Theorem audit_does_not_depend_on_record_order
    (df df' : DataFrame Qc) (hub_code : string) :
  Permutation (records df) (records df') ->
  run_audit (arith := exact pow) df' hub_code
  = run_audit (arith := exact pow) df hub_code.
Proof.
  intros Hperm.
  assert (Hdata : Permutation (hub_data df hub_code) (hub_data df' hub_code)).
  { unfold hub_data.
    rewrite (series_max_perm _ _ (Permutation_map (@Flight.YEAR Qc) Hperm)).
    now apply Permutation_filter_same. }
  unfold run_audit. rewrite <- (Permutation_is_empty _ _ Hdata).
  destruct (is_empty (hub_data df hub_code)); trivial.
  rewrite (groupby_perm_map key_cmp group_key (aggregate (arith := exact pow))
             _ _ (aggregate_perm) Hdata).
  reflexivity.
Qed.

End ExactOrder.

(* ================================================================== *)
(** * The cost of the routes of a loaded table *)

Section LoadedCost.
Local Open Scope Qc_scope.
Variable pow : Qc -> Qc -> Qc.








End LoadedCost.

(* ================================================================== *)
(** * The further properties on the example tables *)

(** [default_hub_is_JFK_or_the_least_origin] at [jfk_london]. *)
Lemma default_hub_is_JFK_or_the_least_origin_witness :
  records jfk_london <> [] /\
  let hub := nth (default_ix (hubs jfk_london)) (hubs jfk_london) EmptyString in
  (default_ix (hubs jfk_london) < List.length (hubs jfk_london))%nat /\
  (exists r, In r (records jfk_london) /\ Flight.ORIGIN r = hub) /\
  ((exists r, In r (records jfk_london) /\ Flight.ORIGIN r = "JFK"%string) ->
   hub = "JFK"%string) /\
  ((forall r, In r (records jfk_london) -> Flight.ORIGIN r <> "JFK"%string) ->
   forall r, In r (records jfk_london) ->
             String.compare hub (Flight.ORIGIN r) <> Gt).
Proof.
  assert (Hne : records jfk_london <> []) by discriminate.
  exact (conj Hne (default_hub_is_JFK_or_the_least_origin jfk_london Hne)).
Defined.

(** [some_hub_has_an_audit] at [jfk_london]. *)
Lemma some_hub_has_an_audit_witness :
  records jfk_london <> [] /\
  exists hub, In hub (hubs jfk_london) /\
              run_audit (arith := binary64 pow_exact_cases) jfk_london hub <> None.
Proof.
  assert (Hne : records jfk_london <> []) by discriminate.
  exact (conj Hne (some_hub_has_an_audit (arith := binary64 pow_exact_cases)
                     jfk_london Hne)).
Defined.

(** [loaded_records_have_seats_and_departures] at [raw_jfk]. *)
Lemma loaded_records_have_seats_and_departures_witness :
  load_data (arith := binary64 pow_exact_cases) raw_jfk = Some loaded_jfk /\
  (forall r, In r (records loaded_jfk) ->
     fltb (Arith := binary64 pow_exact_cases)
          (of_Z (Arith := binary64 pow_exact_cases) 0) (Flight.SEATS r) = true /\
     (Raw.has_DEPARTURES_PERFORMED (Raw.cols raw_jfk) = true ->
      fltb (Arith := binary64 pow_exact_cases)
           (of_Z (Arith := binary64 pow_exact_cases) 0)
           (Flight.DEPARTURES_PERFORMED r) = true)) /\
  (forall r, In r (Raw.rows raw_jfk) ->
     fltb (Arith := binary64 pow_exact_cases)
          (of_Z (Arith := binary64 pow_exact_cases) 0) (Raw.SEATS r) = true ->
     (Raw.has_DEPARTURES_PERFORMED (Raw.cols raw_jfk) = true ->
      fltb (Arith := binary64 pow_exact_cases)
           (of_Z (Arith := binary64 pow_exact_cases) 0)
           (Raw.DEPARTURES_PERFORMED r) = true) ->
     In (label (Raw.cols raw_jfk) r) (records loaded_jfk)).
Proof.
  assert (Hload : load_data (arith := binary64 pow_exact_cases) raw_jfk
                  = Some loaded_jfk) by (vm_compute; reflexivity).
  exact (conj Hload
           (loaded_records_have_seats_and_departures
              (arith := binary64 pow_exact_cases) raw_jfk loaded_jfk Hload)).
Defined.

(** [forecast_of_an_offered_destination] at [raw_jfk], hub JFK and London. *)
Lemma forecast_of_an_offered_destination_witness :
  load_data (arith := binary64 pow_exact_cases) raw_jfk = Some loaded_jfk /\
  run_audit (arith := binary64 pow_exact_cases) loaded_jfk "JFK"
    = Some loaded_jfk_audit /\
  In "London"%string (target_cities loaded_jfk_audit) /\
  if Raw.has_DEST_CITY_NAME (Raw.cols raw_jfk)
  then exists calls series status,
         get_forecast (arith := binary64 pow_exact_cases) mean_regressor
                      loaded_jfk "JFK" "London"
           = Return (calls, (series, status)) /\
         status <> "No Data"%string
  else get_forecast (arith := binary64 pow_exact_cases) mean_regressor
                    loaded_jfk "JFK" "London"
       = Raise (KeyError "DEST_CITY_NAME").
Proof.
  assert (Hload : load_data (arith := binary64 pow_exact_cases) raw_jfk
                  = Some loaded_jfk) by (vm_compute; reflexivity).
  assert (Hrun : run_audit (arith := binary64 pow_exact_cases) loaded_jfk "JFK"
                 = Some loaded_jfk_audit) by (vm_compute; reflexivity).
  assert (Hin : In "London"%string (target_cities loaded_jfk_audit))
    by (vm_compute; left; reflexivity).
  exact (conj Hload (conj Hrun (conj Hin
           (forecast_of_an_offered_destination
              (arith := binary64 pow_exact_cases) mean_regressor
              raw_jfk loaded_jfk "JFK" loaded_jfk_audit "London"
              Hload Hrun Hin)))).
Defined.

(** [monopoly_count_is_at_most_the_destinations] at [jfk_london_exact]. *)
Lemma monopoly_count_is_at_most_the_destinations_witness :
  run_audit (arith := exact pow_stand_in) jfk_london_exact "JFK"
    = Some jfk_london_exact_audit /\
  (forall r, In r (hub_data jfk_london_exact "JFK") ->
             (0 <= Flight.PASSENGERS r)%Qc) /\
  (monopolies jfk_london_exact_audit
   <= List.length (target_cities jfk_london_exact_audit))%nat.
Proof.
  assert (Hrun : run_audit (arith := exact pow_stand_in) jfk_london_exact "JFK"
                 = Some jfk_london_exact_audit) by (vm_compute; reflexivity).
  exact (conj Hrun (conj jfk_london_exact_passengers
           (monopoly_count_is_at_most_the_destinations pow_stand_in
              jfk_london_exact "JFK" jfk_london_exact_audit Hrun
              jfk_london_exact_passengers))).
Defined.

(** [forecast_is_blind_to_2020_2021] at [three_years] and
    [three_years_revised]. *)
Lemma forecast_is_blind_to_2020_2021_witness :
  city_names three_years = city_names three_years_revised /\
  Forall2 same_for_forecast (records three_years) (records three_years_revised) /\
  without_2020_2021
    (get_forecast (arith := binary64 pow_exact_cases) mean_regressor
                  three_years_revised "JFK" "London")
  = without_2020_2021
      (get_forecast (arith := binary64 pow_exact_cases) mean_regressor
                    three_years "JFK" "London").
Proof.
  assert (Hrec : Forall2 same_for_forecast (records three_years)
                                           (records three_years_revised)).
  { vm_compute.
    repeat (apply Forall2_cons;
            [repeat split; try reflexivity; intros H; discriminate H|]).
    apply Forall2_nil. }
  exact (conj eq_refl (conj Hrec
           (forecast_is_blind_to_2020_2021
              (arith := binary64 pow_exact_cases) mean_regressor
              three_years three_years_revised "JFK" "London" eq_refl Hrec))).
Defined.

(** [audit_reads_only_the_hub_in_the_latest_year] at [jfk_london], with a
    record of BOS in 2023 added. *)
Lemma audit_reads_only_the_hub_in_the_latest_year_witness :
  series_max (map (@Flight.YEAR float) (records jfk_london)) = Some 2023 /\
  (forall r, In r bos_london ->
     Flight.YEAR r < 2023 \/
     (Flight.YEAR r = 2023 /\ Flight.ORIGIN r <> "JFK"%string)) /\
  run_audit (arith := binary64 pow_exact_cases)
            {| city_names := city_names jfk_london;
               records := records jfk_london ++ bos_london |} "JFK"
  = run_audit (arith := binary64 pow_exact_cases) jfk_london "JFK".
Proof.
  assert (Hmax : series_max (map (@Flight.YEAR float) (records jfk_london))
                 = Some 2023) by reflexivity.
  assert (H : forall r, In r bos_london ->
            Flight.YEAR r < 2023 \/
            (Flight.YEAR r = 2023 /\ Flight.ORIGIN r <> "JFK"%string)).
  { intros r [<-|[]]. right. split; [reflexivity|discriminate]. }
  exact (conj Hmax (conj H
           (audit_reads_only_the_hub_in_the_latest_year
              (arith := binary64 pow_exact_cases)
              jfk_london bos_london "JFK" 2023 Hmax H))).
Defined.

(** [audit_does_not_depend_on_record_order] at [jfk_london_exact] and its
    reversal. *)
Lemma audit_does_not_depend_on_record_order_witness :
  Permutation (records jfk_london_exact) (records jfk_london_exact_reversed) /\
  run_audit (arith := exact pow_stand_in) jfk_london_exact_reversed "JFK"
  = run_audit (arith := exact pow_stand_in) jfk_london_exact "JFK".
Proof.
  assert (H : Permutation (records jfk_london_exact)
                          (records jfk_london_exact_reversed))
    by apply Permutation_rev.
  exact (conj H (audit_does_not_depend_on_record_order pow_stand_in
                   jfk_london_exact jfk_london_exact_reversed "JFK" H)).
Defined.




(** [at_most_one_monopoly_per_destination] on the row of AA in
    [jfk_london_exact], the one Monopoly of London. *)
Lemma at_most_one_monopoly_per_destination_witness :
  run_audit (arith := exact pow_stand_in) jfk_london_exact "JFK"
    = Some jfk_london_exact_audit /\
  (forall r, In r (hub_data jfk_london_exact "JFK") ->
             (0 <= Flight.PASSENGERS r)%Qc) /\
  In jfk_london_exact_AA jfk_london_exact_audit /\
  Dest_Label jfk_london_exact_AA = Dest_Label jfk_london_exact_AA /\
  Status jfk_london_exact_AA = Monopoly /\
  jfk_london_exact_AA = jfk_london_exact_AA.
Proof.
  assert (Hrun : run_audit (arith := exact pow_stand_in) jfk_london_exact "JFK"
                 = Some jfk_london_exact_audit) by (vm_compute; reflexivity).
  assert (H1 : In jfk_london_exact_AA jfk_london_exact_audit)
    by (left; reflexivity).
  assert (Hm : Status jfk_london_exact_AA = Monopoly) by reflexivity.
  exact (conj Hrun (conj jfk_london_exact_passengers (conj H1 (conj eq_refl
           (conj Hm
              (at_most_one_monopoly_per_destination pow_stand_in
                 jfk_london_exact "JFK" jfk_london_exact_audit
                 jfk_london_exact_AA jfk_london_exact_AA Hrun
                 jfk_london_exact_passengers H1 H1 eq_refl Hm Hm)))))).
Defined.
